(** * cWallet: card store and card suggester

    A shallow embedding of the two service classes of the wallet,
    [CardManager] (src/services/CardManager.ts) and [AICardSuggester]
    (src/services/AICardSuggester.ts), together with the types of
    src/types, and the properties of the written specification that
    concern them.

    Modelling conventions.
    - A JavaScript [string] is a [string] of Rocq: every character is one
      code unit below 256.
    - A JavaScript [number] is a rational of [Q]; two numbers are the same
      number when they are [Qeq].  Rounding, infinities and NaN are not
      modelled.
    - A [Date] is its [getTime()] value, an integer count of milliseconds.
      [new Date()] reads a clock; the instant read is an argument of the
      function that reads it.
    - [this.cards] is the state of a small state-and-exception monad.  A
      [throw] keeps the state as it is at the throw, as in JavaScript: the
      store is not rolled back by the monad.
    - The methods of [CardManager] are [async] but never [await]; the
      promise they return is settled by the time they return, so a rejected
      promise is an error result and a resolved promise a value. *)

From Stdlib Require Import ZArith QArith String Ascii List.
From Stdlib Require Import Permutation Sorted Lia.
From stdpp Require Import base decidable countable gmap strings list pretty.

Local Open Scope string_scope.
Local Open Scope list_scope.

(** ** Types (src/types) *)

Inductive CardType : Type :=
  VISA | MASTERCARD | AMEX | DISCOVER | CARDTYPE_OTHER.

Inductive Category : Type :=
  | DINING | TRAVEL | SHOPPING | GROCERIES | ENTERTAINMENT
  | UTILITIES | HEALTHCARE | TRANSPORTATION | OTHER.

(** The string value of an enum member, as a template literal prints it. *)
Definition Category_value (c : Category) : string :=
  match c with
  | DINING => "dining"
  | TRAVEL => "travel"
  | SHOPPING => "shopping"
  | GROCERIES => "groceries"
  | ENTERTAINMENT => "entertainment"
  | UTILITIES => "utilities"
  | HEALTHCARE => "healthcare"
  | TRANSPORTATION => "transportation"
  | OTHER => "other"
  end.

#[global] Instance Category_eq_dec : EqDecision Category.
Proof. solve_decision. Defined.

Definition Category_index (c : Category) : nat :=
  match c with
  | DINING => 0 | TRAVEL => 1 | SHOPPING => 2 | GROCERIES => 3
  | ENTERTAINMENT => 4 | UTILITIES => 5 | HEALTHCARE => 6
  | TRANSPORTATION => 7 | OTHER => 8
  end.

Definition Category_of_index (n : nat) : Category :=
  match n with
  | 0 => DINING | 1 => TRAVEL | 2 => SHOPPING | 3 => GROCERIES
  | 4 => ENTERTAINMENT | 5 => UTILITIES | 6 => HEALTHCARE
  | 7 => TRANSPORTATION | _ => OTHER
  end.

#[global] Instance Category_countable : Countable Category.
Proof.
  apply (inj_countable' Category_index Category_of_index).
  intros []; reflexivity.
Defined.

(** A [Date], as the number of milliseconds [getTime()] returns. *)
Definition Date : Type := Z.

Record Card : Type := mkCard {
  id : string;
  name : string;
  number : string;
  expiry : string;
  cvv : string;
  cardholderName : string;
  type : CardType;
  categories : list Category;
  cashback : gmap Category Q;
  perks : gmap Category (list string);
  color : option string;
  lastUsed : option Date
}.

Record Transaction : Type := mkTransaction {
  category : Category;
  amount : Q;
  date : option Date;
  description : option string
}.

Module CardSuggestion.
Record t : Type := mk {
  card : Card;
  reason : string;
  cashbackAmount : option Q;
  perks : option (list string)
}.
End CardSuggestion.

(** [{ ...card, lastUsed: d }]: a copy of the record with one field replaced. *)
Definition with_lastUsed (card : Card) (d : Date) : Card :=
  {| id := id card; name := name card; number := number card;
     expiry := expiry card; cvv := cvv card;
     cardholderName := cardholderName card; type := type card;
     categories := categories card; cashback := cashback card;
     perks := perks card; color := color card; lastUsed := Some d |}.

(** ** Errors

    The code throws plain [Error] objects that differ by their message.
    A constructor per throw site keeps them apart; [message] is the text.
    The six presence checks and the three format checks of [validateCard]
    are the validation errors, the three [not found] throws the
    not-found errors. *)

Inductive Rule : Type :=
  | IdRequired | NameRequired | NumberRequired | ExpiryRequired
  | CvvRequired | CardholderNameRequired
  | NumberFormat | ExpiryFormat | CvvFormat.

Inductive Error : Type :=
  | ValidationError (rule : Rule)
  | NotFoundError (cardId : string).

Definition message (e : Error) : string :=
  match e with
  | ValidationError IdRequired => "Card ID is required"
  | ValidationError NameRequired => "Card name is required"
  | ValidationError NumberRequired => "Card number is required"
  | ValidationError ExpiryRequired => "Card expiry is required"
  | ValidationError CvvRequired => "Card CVV is required"
  | ValidationError CardholderNameRequired => "Cardholder name is required"
  | ValidationError NumberFormat => "Invalid card number format"
  | ValidationError ExpiryFormat =>
      "Invalid expiry date format (should be MM/YY)"
  | ValidationError CvvFormat => "Invalid CVV format (should be 3-4 digits)"
  | NotFoundError cardId => "Card with ID " ++ cardId ++ " not found"
  end.

Definition is_ValidationError (e : Error) : bool :=
  match e with ValidationError _ => true | NotFoundError _ => false end.

Definition is_NotFoundError (e : Error) : bool :=
  match e with ValidationError _ => false | NotFoundError _ => true end.

(** ** The store monad *)

Module Store.

Definition M (A : Type) : Type := list Card -> (Error + A) * list Card.

Definition ret {A} (a : A) : M A := fun s => (inr a, s).

Definition throw {A} (e : Error) : M A := fun s => (inl e, s).

Definition bind {A B} (m : M A) (k : A -> M B) : M B :=
  fun s =>
    match m s with
    | (inl e, s') => (inl e, s')
    | (inr a, s') => k a s'
    end.

(** Reading and assigning [this.cards]. *)
Definition get : M (list Card) := fun s => (inr s, s).
Definition put (l : list Card) : M unit := fun _ => (inr tt, l).

(** A computation that cannot touch the store. *)
Definition lift {A} (r : Error + A) : M A := fun s => (r, s).

End Store.

Declare Scope store_scope.
Delimit Scope store_scope with store.
Notation "x <- m ;; k" := (Store.bind m (fun x => k))
  (at level 100, m at next level, right associativity) : store_scope.
Notation "m ;;; k" := (Store.bind m (fun _ => k))
  (at level 100, right associativity) : store_scope.

(** ** Regular expressions of [validateCard] *)

(** [\d]: an ASCII digit. *)
Definition is_digit (a : ascii) : bool :=
  let n := nat_of_ascii a in (48 <=? n)%nat && (n <=? 57)%nat.

(** [\s] on code units below 256: tab, line feed, vertical tab, form feed,
    carriage return, space and no-break space. *)
Definition is_space (a : ascii) : bool :=
  let n := nat_of_ascii a in
  ((9 <=? n)%nat && (n <=? 13)%nat) || (n =? 32)%nat || (n =? 160)%nat.

(** [s.replace(/\s/g, '')]. *)
Fixpoint remove_spaces (s : string) : string :=
  match s with
  | EmptyString => EmptyString
  | String a s' =>
      if is_space a then remove_spaces s' else String a (remove_spaces s')
  end.

Fixpoint all_digits (s : string) : bool :=
  match s with
  | EmptyString => true
  | String a s' => is_digit a && all_digits s'
  end.

(** [/^\d{lo,hi}$/.test(s)]; without the [m] flag [$] is the end of input. *)
Definition digits_between (lo hi : nat) (s : string) : bool :=
  all_digits s && (lo <=? String.length s)%nat && (String.length s <=? hi)%nat.

(** [/^\d{2}\/\d{2}$/.test(s)]. *)
Definition matches_expiry (s : string) : bool :=
  match s with
  | String a (String b (String sep (String c (String d EmptyString)))) =>
      is_digit a && is_digit b && Ascii.eqb sep "/"%char
      && is_digit c && is_digit d
  | _ => false
  end.

(** [!s] for a string: only the empty string is falsy. *)
Definition is_empty (s : string) : bool :=
  match s with EmptyString => true | String _ _ => false end.

(** ** CardManager (src/services/CardManager.ts) *)

Module CardManager.

Import Store.
Local Open Scope store_scope.

(** [if (cond) throw new Error(...)] followed by the rest. *)
Definition throw_if (cond : bool) (e : Error) (rest : Error + unit)
  : Error + unit :=
  if cond then inl e else rest.

Definition validateCard (card : Card) : Error + unit :=
  throw_if (is_empty (id card)) (ValidationError IdRequired) (
  throw_if (is_empty (name card)) (ValidationError NameRequired) (
  throw_if (is_empty (number card)) (ValidationError NumberRequired) (
  throw_if (is_empty (expiry card)) (ValidationError ExpiryRequired) (
  throw_if (is_empty (cvv card)) (ValidationError CvvRequired) (
  throw_if (is_empty (cardholderName card))
           (ValidationError CardholderNameRequired) (
  throw_if (negb (digits_between 13 19 (remove_spaces (number card))))
           (ValidationError NumberFormat) (
  throw_if (negb (matches_expiry (expiry card)))
           (ValidationError ExpiryFormat) (
  throw_if (negb (digits_between 3 4 (cvv card)))
           (ValidationError CvvFormat) (
  inr tt))))))))).

(** The predicate [c => c.id === cardId] of [find], [findIndex] and
    (negated) [filter]. *)
Definition has_id (cardId : string) (c : Card) : Prop := id c = cardId.

#[global] Instance has_id_dec cardId c : Decision (has_id cardId c).
Proof. unfold has_id. apply _. Defined.

(** [this.cards.findIndex(c => c.id === cardId)]; [None] is [-1]. *)
Definition findIndex (cardId : string) (cards : list Card) : option nat :=
  fst <$> list_find (has_id cardId) cards.

(** [this.cards.find(c => c.id === cardId)]; [None] is [undefined]. *)
Definition find (cardId : string) (cards : list Card) : option Card :=
  snd <$> list_find (has_id cardId) cards.

(** [[...this.cards]]: a fresh array with the same elements. *)
Definition getCards : M (list Card) :=
  cards <- get ;; ret cards.

Definition addCard (card : Card) : M Card :=
  lift (validateCard card) ;;;
  cards <- get ;;
  put (cards ++ [card]) ;;;
  ret card.

Definition updateCard (card : Card) : M Card :=
  lift (validateCard card) ;;;
  cards <- get ;;
  match findIndex (id card) cards with
  | None => throw (NotFoundError (id card))
  | Some index =>
      put (<[index := card]> cards) ;;;
      ret card
  end.

Definition deleteCard (cardId : string) : M bool :=
  cards <- get ;;
  match findIndex cardId cards with
  | None => throw (NotFoundError cardId)
  | Some _ =>
      put (filter (fun c => ¬ has_id cardId c) cards) ;;;
      ret true
  end.

(** [card || null]: [None] is [null]. *)
Definition getCardById (cardId : string) : M (option Card) :=
  cards <- get ;; ret (find cardId cards).

(** [now] is the instant [new Date()] reads. *)
Definition updateCardLastUsed (now : Date) (cardId : string) : M Card :=
  cards <- get ;;
  match find cardId cards with
  | None => throw (NotFoundError cardId)
  | Some card => updateCard (with_lastUsed card now)
  end.

End CardManager.

(** ** Operations of the store, as the callers see them *)

Inductive Op : Type :=
  | Add (card : Card)
  | Update (card : Card)
  | Delete (cardId : string)
  | MarkUsed (now : Date) (cardId : string)
  | GetById (cardId : string)
  | GetAll.

(** What a call hands back to its caller. *)
Inductive Value : Type :=
  | VCard (card : Card)
  | VBool (b : bool)
  | VLookup (found : option Card)
  | VCards (cards : list Card).

Definition run (op : Op) : Store.M Value :=
  (match op with
   | Add card => c <- CardManager.addCard card ;; Store.ret (VCard c)
   | Update card => c <- CardManager.updateCard card ;; Store.ret (VCard c)
   | Delete cardId => b <- CardManager.deleteCard cardId ;; Store.ret (VBool b)
   | MarkUsed now cardId =>
       c <- CardManager.updateCardLastUsed now cardId ;; Store.ret (VCard c)
   | GetById cardId =>
       o <- CardManager.getCardById cardId ;; Store.ret (VLookup o)
   | GetAll => l <- CardManager.getCards ;; Store.ret (VCards l)
   end)%store.

(** The store after a call, and whether the call succeeded. *)
Definition store_after (op : Op) (cards : list Card) : list Card :=
  snd (run op cards).

Definition succeeds (op : Op) (cards : list Card) : Prop :=
  exists v, fst (run op cards) = inr v.

Definition fails_with (op : Op) (cards : list Card) (e : Error) : Prop :=
  fst (run op cards) = inl e.

(** States reached from the empty store ([private cards: Card[] = []]) by
    calls that succeed. *)
Inductive reachable : list Card -> Prop :=
  | reachable_empty : reachable []
  | reachable_step op cards :
      reachable cards -> succeeds op cards ->
      reachable (store_after op cards).

(** The same, when no [Add] is given a card whose id is in the store. *)
Definition fresh_add (op : Op) (cards : list Card) : Prop :=
  match op with
  | Add card => id card ∉ (id <$> cards)
  | _ => True
  end.

Inductive reachable_fresh : list Card -> Prop :=
  | reachable_fresh_empty : reachable_fresh []
  | reachable_fresh_step op cards :
      reachable_fresh cards -> fresh_add op cards -> succeeds op cards ->
      reachable_fresh (store_after op cards).

(** ** Built-ins of the language used by [AICardSuggester] *)

(** [x < y] on numbers. *)
Definition Qlt_bool (x y : Q) : bool := negb (Qle_bool y x).

(** [x || d] for [x : number | undefined] and a number [d]: [undefined]
    and [0] are falsy. *)
Definition or_number (x : option Q) (d : Q) : Q :=
  match x with
  | Some q => if Qeq_bool q 0 then d else q
  | None => d
  end.

(** [x || y] for [x], [y : number | undefined]. *)
Definition or_undefined (x y : option Q) : option Q :=
  match x with
  | Some q => if Qeq_bool q 0 then y else x
  | None => y
  end.

(** [Array.prototype.sort(comparefn)].  The language requires the sort to be
    stable, and with a consistent comparator the sorted array is then
    unique; insertion from the right end computes it.  [comparefn a b > 0]
    places [a] after [b]. *)
Fixpoint sort_insert {A} (comparefn : A -> A -> Q) (x : A) (l : list A)
  : list A :=
  match l with
  | [] => [x]
  | y :: l' =>
      if Qlt_bool 0 (comparefn x y) then y :: sort_insert comparefn x l'
      else x :: y :: l'
  end.

Definition Array_sort {A} (comparefn : A -> A -> Q) (l : list A) : list A :=
  foldr (sort_insert comparefn) [] l.

(** The comparator [(a, b) => key b - key a]. *)
Definition descending {A} (key : A -> Q) (a b : A) : Q := (key b - key a)%Q.

#[global] Instance Qeq_decision (x y : Q) : Decision (x == y)%Q :=
  Qeq_dec x y.

(** ** AICardSuggester (src/services/AICardSuggester.ts) *)

Module AICardSuggester.

Section WithNumberToString.

(** [Number.prototype.toString], which a template literal applies to a
    number: a built-in, taken as given. *)
Variable Number_toString : Q -> string.

(** [card.perks[transaction.category]?.length > 0]; [undefined > 0] is
    false. *)
Definition hasPerks (card : Card) (transaction : Transaction) : bool :=
  match perks card !! category transaction with
  | Some l => (0 <? length l)%nat
  | None => false
  end.

(** [now] is the instant [new Date()] reads. *)
Definition calculateScore (now : Date) (card : Card)
  (transaction : Transaction) : Q :=
  let score := 0%Q in
  let cashbackRate := or_number (cashback card !! category transaction) 0 in
  let score :=
    if Qlt_bool 0 cashbackRate then (score + cashbackRate * 10)%Q
    else
      let defaultCashback := or_number (cashback card !! OTHER) 0 in
      (score + defaultCashback * 5)%Q in
  let score := if hasPerks card transaction then (score + 5)%Q else score in
  let score :=
    if bool_decide (category transaction ∈ categories card)
    then (score + 3)%Q else score in
  let score :=
    match lastUsed card with
    | Some used =>
        let daysSinceLastUse :=
          (inject_Z (now - used) / (1000 * 60 * 60 * 24))%Q in
        if Qlt_bool daysSinceLastUse 7 then (score + 1)%Q else score
    | None => score
    end in
  score.

Definition generateReason (card : Card) (transaction : Transaction)
  : string :=
  let cashbackRate :=
    or_number (or_undefined (cashback card !! category transaction)
                            (cashback card !! OTHER)) 0 in
  let hasPerks := hasPerks card transaction in
  if Qlt_bool 0 cashbackRate && hasPerks then
    name card ++ " offers " ++ Number_toString cashbackRate
      ++ "% cashback on " ++ Category_value (category transaction)
      ++ " purchases and has additional perks."
  else if Qlt_bool 0 cashbackRate then
    name card ++ " offers " ++ Number_toString cashbackRate
      ++ "% cashback on " ++ Category_value (category transaction)
      ++ " purchases."
  else if hasPerks then
    name card ++ " offers special perks for "
      ++ Category_value (category transaction) ++ " purchases."
  else
    name card ++ " is the best option for this purchase.".

(** [cards.map(card => ({ card, score }))]: a pair is an object
    [{ card, score }].  The callback runs once per card, in order, and
    reads the clock each time: [clock i] is the instant read while scoring
    [cards[i]]. *)
Definition scored (clock : nat -> Date) (transaction : Transaction)
  (cards : list Card) : list (Card * Q) :=
  imap (fun i card => (card, calculateScore (clock i) card transaction))
       cards.

(** The array [scoredCards]: [.sort((a, b) => b.score - a.score)]. *)
Definition scoredCards (clock : nat -> Date) (transaction : Transaction)
  (cards : list Card) : list (Card * Q) :=
  Array_sort (fun a b => (snd b - snd a)%Q) (scored clock transaction cards).

(** [None] is [null]. *)
Definition suggestCard (clock : nat -> Date) (transaction : Transaction)
  (cards : list Card) : option CardSuggestion.t :=
  if (length cards =? 0)%nat then None
  else
    match scoredCards clock transaction cards with
    | [] => None (* [scoredCards[0]] exists: the array is not empty *)
    | (bestCard, _) :: _ =>
        let reason := generateReason bestCard transaction in
        let cashbackRate :=
          or_number (cashback bestCard !! category transaction) 0 in
        let cashbackAmount :=
          if Qlt_bool 0 cashbackRate
          then Some (amount transaction * cashbackRate / 100)%Q
          else None in
        let perks := perks bestCard !! category transaction in
        Some {| CardSuggestion.card := bestCard;
                CardSuggestion.reason := reason;
                CardSuggestion.cashbackAmount := cashbackAmount;
                CardSuggestion.perks := perks |}
    end.

End WithNumberToString.

End AICardSuggester.

(** ** The specification's wording of the suggester *)

Module Spec.

(** "percentage rate (0-100)": the range of the rates of a card. *)
Definition valid_rates (card : Card) : Prop :=
  forall k r, cashback card !! k = Some r -> (0 <= r /\ r <= 100)%Q.

(** No rate of the card is negative. *)
Definition nonnegative_rates (card : Card) : Prop :=
  forall k r, cashback card !! k = Some r -> (0 <= r)%Q.

(** Every rate of the card is a whole percentage from 0 to 100.  On such
    rates each product and sum of [calculateScore] is a whole number of at
    most four digits, which the arithmetic of the code computes without
    rounding. *)
Definition whole_rates (card : Card) : Prop :=
  forall k r, cashback card !! k = Some r ->
    exists z : Z, (r == inject_Z z)%Q /\ (0 <= z <= 100)%Z.

(** "cashback[other] if present, else 0". *)
Definition fallback_rate (card : Card) : Q :=
  match cashback card !! OTHER with Some r => r | None => 0%Q end.

(** "cashback[transaction.category] if present and > 0". *)
Definition direct_rate (card : Card) (transaction : Transaction)
  : option Q :=
  match cashback card !! category transaction with
  | Some r => if Qlt_bool 0 r then Some r else None
  | None => None
  end.

(** Scoring step 1: the effective cashback rate. *)
Definition effective_rate (card : Card) (transaction : Transaction) : Q :=
  match direct_rate card transaction with
  | Some r => r
  | None => fallback_rate card
  end.

(** Scoring step 1, weighted: direct rate x 10, fallback rate x 5. *)
Definition cashback_points (card : Card) (transaction : Transaction) : Q :=
  match direct_rate card transaction with
  | Some r => (r * 10)%Q
  | None => (fallback_rate card * 5)%Q
  end.

(** "perks[transaction.category] exists and is non-empty". *)
Definition perks_present (card : Card) (transaction : Transaction) : Prop :=
  exists l, perks card !! category transaction = Some l /\ l <> [].

#[global] Instance perks_present_dec card transaction :
  Decision (perks_present card transaction).
Proof.
  unfold perks_present.
  destruct (perks card !! category transaction) as [[|p l]|].
  - right. intros (l' & H & Hne). congruence.
  - left. eexists. split; [reflexivity | discriminate].
  - right. intros (l' & H & _). discriminate.
Defined.

Definition seven_days : Z := 7 * 24 * 60 * 60 * 1000.

(** "lastUsed is set and is less than 7 days before now". *)
Definition recently_used (now : Date) (card : Card) : Prop :=
  exists used, lastUsed card = Some used /\ (now - used < seven_days)%Z.

#[global] Instance recently_used_dec now card :
  Decision (recently_used now card).
Proof.
  unfold recently_used. destruct (lastUsed card) as [used|].
  - destruct (decide (now - used < seven_days)%Z) as [H|H].
    + left. eauto.
    + right. intros (u & Hu & Hlt). congruence.
  - right. intros (u & Hu & _). discriminate.
Defined.

(** The total score: the sum of the four terms. *)
Definition score (now : Date) (card : Card) (transaction : Transaction)
  : Q :=
  (cashback_points card transaction
   + (if decide (perks_present card transaction) then 5 else 0)
   + (if decide (category transaction ∈ categories card) then 3 else 0)
   + (if decide (recently_used now card) then 1 else 0))%Q.

(** [cashbackAmount], from the effective rate. *)
Definition cashbackAmount (card : Card) (transaction : Transaction)
  : option Q :=
  let rate := effective_rate card transaction in
  if Qlt_bool 0 rate then Some (amount transaction * (rate / 100))%Q
  else None.

(** Equality of optional numbers: both omitted, or the same number. *)
Definition same_amount (x y : option Q) : Prop :=
  match x, y with
  | Some a, Some b => (a == b)%Q
  | None, None => True
  | _, _ => False
  end.

End Spec.

(** ** Sample data *)

Module Sample.

(** Prints the integers as [Number.prototype.toString] does; used on
    whole rates only. *)
Definition print_whole (q : Q) : string :=
  pretty.pretty (Qnum q / Z.pos (Qden q))%Z.

(** The two cards of the suggestion screen. *)
Definition chase : Card :=
  {| id := "1"; name := "Chase Sapphire"; number := "4111111111111111";
     expiry := "12/25"; cvv := "123"; cardholderName := "John Doe";
     type := VISA; categories := [DINING; TRAVEL];
     cashback := {[ DINING := 3%Q; TRAVEL := 5%Q; OTHER := 1%Q ]};
     perks := {[ DINING := ["No foreign transaction fees"];
                 TRAVEL := ["Travel insurance"; "Airport lounge access"] ]};
     color := Some "#1A1F71"; lastUsed := None |}.

Definition amex : Card :=
  {| id := "2"; name := "Amex Gold"; number := "378282246310005";
     expiry := "06/24"; cvv := "1234"; cardholderName := "John Doe";
     type := AMEX; categories := [DINING; GROCERIES];
     cashback := {[ DINING := 4%Q; GROCERIES := 4%Q; OTHER := 1%Q ]};
     perks := {[ DINING := ["$120 dining credit annually"];
                 GROCERIES := ["$120 Uber cash annually"] ]};
     color := Some "#006FCF"; lastUsed := None |}.

(** A card whose only rate is the default one. *)
Definition flat : Card :=
  {| id := "3"; name := "Flat One"; number := "4000 0000 0000 0002";
     expiry := "01/30"; cvv := "321"; cardholderName := "John Doe";
     type := MASTERCARD; categories := [];
     cashback := {[ OTHER := 1%Q ]}; perks := ∅;
     color := None; lastUsed := None |}.

Definition dinner : Transaction :=
  {| category := DINING; amount := 100%Q; date := None;
     description := None |}.

Definition checkup : Transaction :=
  {| category := HEALTHCARE; amount := 100%Q; date := None;
     description := None |}.

(** The first card again, under a name that validation rejects. *)
Definition nameless : Card :=
  {| id := "1"; name := ""; number := "4111111111111111";
     expiry := "12/25"; cvv := "123"; cardholderName := "John Doe";
     type := VISA; categories := [DINING; TRAVEL];
     cashback := cashback chase; perks := perks chase;
     color := Some "#1A1F71"; lastUsed := None |}.

(** A second card with the same single rate. *)
Definition flat_twin : Card :=
  {| id := "4"; name := "Flat Two"; number := "4000 0000 0000 0010";
     expiry := "02/31"; cvv := "4321"; cardholderName := "John Doe";
     type := DISCOVER; categories := [];
     cashback := {[ OTHER := 1%Q ]}; perks := ∅;
     color := None; lastUsed := None |}.

(** A card with a negative rate for dining. *)
Definition penalty : Card :=
  {| id := "5"; name := "Penalty"; number := "4000000000000028";
     expiry := "03/29"; cvv := "555"; cardholderName := "John Doe";
     type := VISA; categories := [];
     cashback := {[ DINING := (-2)%Q; OTHER := 2%Q ]}; perks := ∅;
     color := None; lastUsed := None |}.

(** A clock that stands still. *)
Definition noon : nat -> Date := fun _ => 1700000000000%Z.

End Sample.

(** ** More built-ins on strings *)

(** [s.trimStart()] and [s.trimEnd()]; the white space and line
    terminators that [trim] strips are the characters of [\s]. *)
Fixpoint trimStart (s : string) : string :=
  match s with
  | EmptyString => EmptyString
  | String a s' => if is_space a then trimStart s' else s
  end.

Fixpoint trimEnd (s : string) : string :=
  match s with
  | EmptyString => EmptyString
  | String a s' =>
      match trimEnd s' with
      | EmptyString => if is_space a then EmptyString else String a EmptyString
      | t => String a t
      end
  end.

(** [s.trim()]. *)
Definition trim (s : string) : string := trimEnd (trimStart s).

Fixpoint string_drop (n : nat) (s : string) : string :=
  match n, s with
  | O, _ => s
  | S _, EmptyString => EmptyString
  | S n', String _ s' => string_drop n' s'
  end.

(** [s.slice(-n)]: the last [n] characters, all of [s] when it is
    shorter. *)
Definition slice_last (n : nat) (s : string) : string :=
  string_drop (String.length s - n) s.

Fixpoint string_forallb (p : ascii -> bool) (s : string) : bool :=
  match s with
  | EmptyString => true
  | String a s' => p a && string_forallb p s'
  end.

(** ** Navigation (src/navigation/index.tsx) *)

Module Navigation.

Inductive Screen : Type := HOME | ADD_CARD | SUGGESTION.

(** [useState<Screen[]>([Screen.HOME])]. *)
Definition initialHistory : list Screen := [HOME].

(** [setHistory(prev => [...prev, screen])]. *)
Definition navigate (screen : Screen) (prev : list Screen) : list Screen :=
  prev ++ [screen].

(** [if (history.length > 1) setHistory(prev => prev.slice(0, -1))]:
    [history] is the state the handler closed over, [prev] the state the
    update is applied to. *)
Definition goBack (history prev : list Screen) : list Screen :=
  if (1 <? length history)%nat then take (length prev - 1) prev else prev.

(** [history[history.length - 1]]; [None] is [undefined]. *)
Definition currentScreen (history : list Screen) : option Screen :=
  history !! (length history - 1).

(** What a screen asks of the provider. *)
Inductive Action : Type :=
  | Navigate (screen : Screen)
  | GoBack.

(** One action handled on the state the provider was last rendered with:
    the handler's [history] is then the state it updates. *)
Definition dispatch (history : list Screen) (action : Action)
  : list Screen :=
  match action with
  | Navigate screen => navigate screen history
  | GoBack => goBack history history
  end.

(** The history after a sequence of actions, each handled after the
    render that follows the one before. *)
Definition after (actions : list Action) : list Screen :=
  foldl dispatch initialHistory actions.

End Navigation.

(** ** AddCardScreen (src/screens/AddCardScreen.tsx): the form *)

Module AddCardScreen.

(** The new value of [selectedCategories]. *)
Definition toggleCategory (category : Category)
  (selectedCategories : list Category) : list Category :=
  if bool_decide (category ∈ selectedCategories)
  then filter (fun c => c <> category) selectedCategories
  else selectedCategories ++ [category].

(** The arguments are the form state the closure reads. *)
Definition isFormValid (name number expiry cvv cardholderName : string)
  (selectedCategories : list Category) : bool :=
  negb (is_empty (trim name))
  && negb (is_empty (trim number))
  && negb (is_empty (trim expiry))
  && negb (is_empty (trim cvv))
  && negb (is_empty (trim cardholderName))
  && (0 <? length selectedCategories)%nat.

(** The object [newCard] of [handleSubmit]; [generatedId] is what
    [generateId()] returned.  [color] and [lastUsed] are not set. *)
Definition newCard (generatedId : string)
  (name number expiry cvv cardholderName : string)
  (selectedCategories : list Category) : Card :=
  mkCard generatedId name number expiry cvv cardholderName VISA
    selectedCategories
    {[ DINING := 2%Q; TRAVEL := 3%Q; OTHER := 1%Q ]}
    {[ DINING := ["No foreign transaction fees"];
       TRAVEL := ["Travel insurance"] ]}
    None None.

End AddCardScreen.

(** ** SuggestionScreen (src/screens/SuggestionScreen.tsx): the amount *)

Module SuggestionScreen.

(** A character that [[^0-9.]] does not match. *)
Definition is_numeric (a : ascii) : bool :=
  is_digit a || Ascii.eqb a "."%char.

(** [text.replace(/[^0-9.]/g, '')]. *)
Fixpoint remove_non_numeric (text : string) : string :=
  match text with
  | EmptyString => EmptyString
  | String a text' =>
      if is_numeric a then String a (remove_non_numeric text')
      else remove_non_numeric text'
  end.

(** The new value of [amount]. *)
Definition handleAmountChange (text : string) : string :=
  let numericValue := remove_non_numeric text in
  numericValue.

End SuggestionScreen.

(** ** CardItem (src/components/CardItem.tsx) *)

Module CardItem.

(** The literal that masks a number when details are hidden: four
    bullets (U+2022) and a space.  The bullet lies outside the characters
    modelled; it is held here as its three UTF-8 bytes, and nothing below
    depends on the length of this literal. *)
Definition bullets : string := "•••• ".

Definition formatCardNumber (number : string) (showDetails : bool)
  : string :=
  let cleanNumber := remove_spaces number in
  let lastFour := slice_last 4 cleanNumber in
  if showDetails then "**** **** **** " ++ lastFour
  else bullets ++ lastFour.

End CardItem.

(** The fields of a card other than [lastUsed]. *)
Definition same_but_lastUsed (c c' : Card) : Prop :=
  id c' = id c /\ name c' = name c /\ number c' = number c
  /\ expiry c' = expiry c /\ cvv c' = cvv c
  /\ cardholderName c' = cardholderName c /\ type c' = type c
  /\ categories c' = categories c /\ cashback c' = cashback c
  /\ perks c' = perks c /\ color c' = color c.

(** * Properties of the card store *)

(** ** What each method computes *)

Lemma addCard_unfold card s :
  CardManager.addCard card s =
  match CardManager.validateCard card with
  | inl e => (inl e, s)
  | inr _ => (inr card, s ++ [card])
  end.
Proof.
  unfold CardManager.addCard, Store.bind, Store.lift.
  destruct (CardManager.validateCard card); reflexivity.
Qed.

Lemma updateCard_unfold card s :
  CardManager.updateCard card s =
  match CardManager.validateCard card with
  | inl e => (inl e, s)
  | inr _ =>
      match CardManager.findIndex (id card) s with
      | None => (inl (NotFoundError (id card)), s)
      | Some i => (inr card, <[i := card]> s)
      end
  end.
Proof.
  unfold CardManager.updateCard, Store.bind, Store.lift.
  destruct (CardManager.validateCard card); [reflexivity|]. simpl.
  destruct (CardManager.findIndex (id card) s); reflexivity.
Qed.

Lemma deleteCard_unfold cardId s :
  CardManager.deleteCard cardId s =
  match CardManager.findIndex cardId s with
  | None => (inl (NotFoundError cardId), s)
  | Some _ => (inr true, filter (fun c => ¬ CardManager.has_id cardId c) s)
  end.
Proof.
  unfold CardManager.deleteCard, Store.bind. simpl.
  destruct (CardManager.findIndex cardId s); reflexivity.
Qed.

Lemma updateCardLastUsed_unfold now cardId s :
  CardManager.updateCardLastUsed now cardId s =
  match CardManager.find cardId s with
  | None => (inl (NotFoundError cardId), s)
  | Some card => CardManager.updateCard (with_lastUsed card now) s
  end.
Proof.
  unfold CardManager.updateCardLastUsed, Store.bind. simpl.
  destruct (CardManager.find cardId s); reflexivity.
Qed.

Lemma validateCard_with_lastUsed card now :
  CardManager.validateCard (with_lastUsed card now)
  = CardManager.validateCard card.
Proof. reflexivity. Qed.

(** ** [find] and [findIndex] *)

Lemma find_Some cardId s c :
  CardManager.find cardId s = Some c <->
  exists i, CardManager.findIndex cardId s = Some i /\ s !! i = Some c
            /\ id c = cardId
            /\ forall j y, s !! j = Some y -> j < i -> id y <> cardId.
Proof.
  unfold CardManager.find, CardManager.findIndex.
  destruct (list_find (CardManager.has_id cardId) s) as [[i x]|] eqn:E;
    simpl.
  - apply list_find_Some in E as (Hi & Hx & Hlt). split.
    + intros [= <-]. exists i. auto.
    + intros (i' & [= <-] & Hi' & _). congruence.
  - split; [discriminate|]. intros (i & [=] & _).
Qed.

Lemma find_None cardId s :
  CardManager.find cardId s = None <-> cardId ∉ (id <$> s).
Proof.
  unfold CardManager.find.
  destruct (list_find (CardManager.has_id cardId) s) as [[i x]|] eqn:E;
    simpl.
  - apply list_find_Some in E as (Hi & Hx & _). split; [discriminate|].
    intros Hn. exfalso. apply Hn. rewrite <- Hx.
    apply list_elem_of_fmap_2. eapply list_elem_of_lookup_2. eassumption.
  - split; [|reflexivity]. intros _ Hin.
    apply list_elem_of_fmap in Hin as (c & -> & Hc).
    apply list_find_None in E. rewrite Forall_forall in E.
    apply (E c Hc). reflexivity.
Qed.

Lemma findIndex_None cardId s :
  CardManager.findIndex cardId s = None <-> CardManager.find cardId s = None.
Proof.
  unfold CardManager.find, CardManager.findIndex.
  destruct (list_find _ s) as [[]|]; simpl; split; congruence.
Qed.

Lemma find_app_l cardId s t c :
  CardManager.find cardId s = Some c ->
  CardManager.find cardId (s ++ t) = Some c.
Proof.
  unfold CardManager.find.
  destruct (list_find (CardManager.has_id cardId) s) as [[i x]|] eqn:E;
    simpl; [|discriminate].
  intros [= <-]. erewrite list_find_app_l by eassumption. reflexivity.
Qed.

Lemma find_app_r cardId s t :
  CardManager.find cardId s = None ->
  CardManager.find cardId (s ++ t) = CardManager.find cardId t.
Proof.
  unfold CardManager.find.
  destruct (list_find (CardManager.has_id cardId) s) as [[i x]|] eqn:E;
    simpl; [discriminate|].
  intros _. rewrite list_find_app_r by assumption.
  destruct (list_find _ t) as [[]|]; reflexivity.
Qed.

Lemma find_cons cardId c s :
  CardManager.find cardId (c :: s) =
  if decide (id c = cardId) then Some c else CardManager.find cardId s.
Proof.
  unfold CardManager.find. simpl. unfold CardManager.has_id at 1.
  destruct (decide (id c = cardId)); [reflexivity|].
  destruct (list_find _ s) as [[]|]; reflexivity.
Qed.

(** ** A failing write leaves the store alone *)

Lemma run_fails_unchanged op s e :
  fails_with op s e -> store_after op s = s.
Proof.
  unfold fails_with, store_after.
  destruct op as [card|card|cardId|now cardId|cardId|]; simpl;
    unfold Store.bind.
  - rewrite addCard_unfold.
    destruct (CardManager.validateCard card); simpl; [reflexivity|discriminate].
  - rewrite updateCard_unfold.
    destruct (CardManager.validateCard card); simpl; [reflexivity|].
    destruct (CardManager.findIndex (id card) s); simpl;
      [discriminate|reflexivity].
  - rewrite deleteCard_unfold.
    destruct (CardManager.findIndex cardId s); simpl;
      [discriminate|reflexivity].
  - rewrite updateCardLastUsed_unfold.
    destruct (CardManager.find cardId s) as [c|]; simpl; [|reflexivity].
    rewrite updateCard_unfold.
    destruct (CardManager.validateCard _); simpl; [reflexivity|].
    destruct (CardManager.findIndex _ s); simpl; [discriminate|reflexivity].
  - reflexivity.
  - reflexivity.
Qed.

(** C6.  Every failing write leaves the store unchanged.  Whatever the
    call and the error, [getCards] returns after the call what it returned
    before it.  The failing calls are: [addCard] and [updateCard] with a
    card that validation rejects, which fail with that validation error;
    [updateCard] with a card that passes validation, [deleteCard] and
    [updateCardLastUsed] with an id that no stored card has, which fail
    with a not-found error. *)
Theorem failing_write_leaves_store_unchanged (s : list Card) :
  (forall op e, fails_with op s e ->
     fst (CardManager.getCards (store_after op s))
     = fst (CardManager.getCards s))
  /\ (forall card e, CardManager.validateCard card = inl e ->
        is_ValidationError e = true
        /\ CardManager.addCard card s = (inl e, s)
        /\ CardManager.updateCard card s = (inl e, s))
  /\ (forall card, CardManager.validateCard card = inr tt ->
        id card ∉ (id <$> s) ->
        CardManager.updateCard card s = (inl (NotFoundError (id card)), s))
  /\ (forall cardId, cardId ∉ (id <$> s) ->
        CardManager.deleteCard cardId s = (inl (NotFoundError cardId), s)
        /\ forall now,
             CardManager.updateCardLastUsed now cardId s
             = (inl (NotFoundError cardId), s)).
Proof.
  split; [|split; [|split]].
  - intros op e H. rewrite (run_fails_unchanged op s e H). reflexivity.
  - intros card e H. split; [|split].
    + revert H. unfold CardManager.validateCard, CardManager.throw_if.
      repeat match goal with
             | |- context [if ?b then _ else _] => destruct b
             end; intros [= <-]; reflexivity.
    + rewrite addCard_unfold, H. reflexivity.
    + rewrite updateCard_unfold, H. reflexivity.
  - intros card H Hid. rewrite updateCard_unfold, H.
    apply find_None, findIndex_None in Hid. rewrite Hid. reflexivity.
  - intros cardId Hid. apply find_None in Hid. split.
    + rewrite deleteCard_unfold.
      apply findIndex_None in Hid. rewrite Hid. reflexivity.
    + intros now. rewrite updateCardLastUsed_unfold, Hid. reflexivity.
Qed.

(** ** The effect of a call that succeeds *)


Lemma markUsed_effect now cardId s c :
  CardManager.find cardId s = Some c ->
  exists i, s !! i = Some c /\ id c = cardId
    /\ CardManager.findIndex cardId s = Some i
    /\ CardManager.updateCardLastUsed now cardId s =
       match CardManager.validateCard c with
       | inl e => (inl e, s)
       | inr _ => (inr (with_lastUsed c now), <[i := with_lastUsed c now]> s)
       end.
Proof.
  intros Hfind. rewrite updateCardLastUsed_unfold, Hfind.
  apply find_Some in Hfind as (i & Hidx & Hi & Hid & Hfirst).
  exists i. repeat split; try assumption.
  rewrite updateCard_unfold, validateCard_with_lastUsed.
  destruct (CardManager.validateCard c); [reflexivity|].
  simpl. rewrite Hid, Hidx. reflexivity.
Qed.

Lemma succeeds_effect op s :
  succeeds op s ->
  match op with
  | Add card =>
      CardManager.validateCard card = inr tt /\ store_after op s = s ++ [card]
  | Update card =>
      CardManager.validateCard card = inr tt
      /\ exists i old, s !! i = Some old /\ id old = id card
           /\ CardManager.find (id card) s = Some old
           /\ CardManager.findIndex (id card) s = Some i
           /\ store_after op s = <[i := card]> s
  | Delete cardId =>
      store_after op s = filter (fun c => ¬ CardManager.has_id cardId c) s
  | MarkUsed now cardId =>
      exists i c, s !! i = Some c /\ id c = cardId
        /\ CardManager.find cardId s = Some c
        /\ CardManager.findIndex cardId s = Some i
        /\ CardManager.validateCard c = inr tt
        /\ store_after op s = <[i := with_lastUsed c now]> s
  | GetById _ | GetAll => store_after op s = s
  end.
Proof.
  unfold succeeds, store_after.
  destruct op as [card|card|cardId|now cardId|cardId|]; simpl;
    unfold Store.bind; intros [v Hv]; revert Hv.
  - rewrite addCard_unfold.
    destruct (CardManager.validateCard card) as [e|[]]; simpl;
      [discriminate|]. auto.
  - rewrite updateCard_unfold.
    destruct (CardManager.validateCard card) as [e|[]]; simpl;
      [discriminate|].
    destruct (CardManager.find (id card) s) as [old|] eqn:Hfind.
    + pose proof Hfind as Hfind'.
      apply find_Some in Hfind' as (i & Hidx & Hi & Hid & _).
      rewrite Hidx. simpl. intros _. split; [reflexivity|].
      exists i, old. repeat split; assumption.
    + apply findIndex_None in Hfind. rewrite Hfind. discriminate.
  - rewrite deleteCard_unfold.
    destruct (CardManager.findIndex cardId s); simpl; [auto|discriminate].
  - destruct (CardManager.find cardId s) as [c|] eqn:Hfind.
    + destruct (markUsed_effect now cardId s c Hfind)
        as (i & Hi & Hid & Hidx & ->).
      destruct (CardManager.validateCard c) as [e|[]] eqn:Hv; simpl;
        [discriminate|].
      intros _. exists i, c. repeat split; assumption.
    + rewrite updateCardLastUsed_unfold, Hfind. discriminate.
  - reflexivity.
  - reflexivity.
Qed.

(** ** Stored cards are valid cards *)

Lemma reachable_valid s :
  reachable s -> Forall (fun c => CardManager.validateCard c = inr tt) s.
Proof.
  induction 1 as [|op s Hs IH Hok]; [constructor|].
  apply succeeds_effect in Hok.
  destruct op as [card|card|cardId|now cardId|cardId|].
  - destruct Hok as [Hv ->]. apply Forall_app. auto.
  - destruct Hok as (Hv & i & old & _ & _ & _ & _ & ->).
    apply Forall_insert; assumption.
  - rewrite Hok. rewrite Forall_forall in IH |- *.
    intros c Hc. apply list_elem_of_filter in Hc as [_ Hc]. auto.
  - destruct Hok as (i & c & _ & _ & _ & _ & Hv & ->).
    apply Forall_insert; [assumption|].
    rewrite validateCard_with_lastUsed. assumption.
  - rewrite Hok. assumption.
  - rewrite Hok. assumption.
Qed.

(** C7.  In a store reached from the empty one by successful calls,
    [updateCardLastUsed] on the id of a stored card succeeds, at any
    instant: the card found passes the validation that [updateCard] runs
    again, and returns the card with its new [lastUsed]. *)
Theorem markUsed_never_fails_on_stored_id (s : list Card) (c : Card)
  (now : Date) :
  reachable s -> c ∈ s ->
  exists c', fst (CardManager.updateCardLastUsed now (id c) s) = inr c'
             /\ id c' = id c /\ lastUsed c' = Some now.
Proof.
  intros Hs Hc.
  destruct (CardManager.find (id c) s) as [c0|] eqn:Hfind.
  - destruct (markUsed_effect now (id c) s c0 Hfind)
      as (i & Hi & Hid & _ & ->).
    pose proof (reachable_valid s Hs) as Hvalid.
    rewrite Forall_forall in Hvalid.
    rewrite (Hvalid c0) by (eapply list_elem_of_lookup_2; eassumption).
    exists (with_lastUsed c0 now). auto.
  - apply find_None in Hfind. exfalso. apply Hfind.
    apply list_elem_of_fmap_2. assumption.
Qed.

(** C8.  [addCard] of a card that passes validation and whose id no stored
    card has, followed by [getCardById] of that id, returns the card
    supplied; [addCard] itself returns it too. *)
Theorem add_then_getById_roundtrip (s : list Card) (card : Card) :
  CardManager.validateCard card = inr tt ->
  id card ∉ (id <$> s) ->
  CardManager.addCard card s = (inr card, s ++ [card])
  /\ (CardManager.addCard card ;;; CardManager.getCardById (id card))%store s
     = (inr (Some card), s ++ [card]).
Proof.
  intros Hvalid Hfresh.
  assert (Hadd : CardManager.addCard card s = (inr card, s ++ [card]))
    by (rewrite addCard_unfold, Hvalid; reflexivity).
  split; [assumption|].
  unfold Store.bind at 1. rewrite Hadd.
  unfold CardManager.getCardById, Store.bind. simpl.
  apply find_None in Hfresh. rewrite (find_app_r _ _ _ Hfresh).
  unfold CardManager.find. simpl.
  destruct (decide (CardManager.has_id (id card) card)) as [|Hn];
    [reflexivity|]. exfalso. apply Hn. reflexivity.
Qed.

(** ** Ids of the stored cards *)

Lemma insert_same_id (s : list Card) i old card :
  s !! i = Some old -> id old = id card ->
  id <$> <[i := card]> s = id <$> s.
Proof.
  intros Hi Hid. rewrite list_fmap_insert. apply list_insert_id.
  rewrite list_lookup_fmap, Hi. simpl. congruence.
Qed.

Lemma store_after_ids_NoDup op s :
  NoDup (id <$> s) -> fresh_add op s -> succeeds op s ->
  NoDup (id <$> store_after op s).
Proof.
  intros Hnd Hfresh Hok. apply succeeds_effect in Hok.
  destruct op as [card|card|cardId|now cardId|cardId|].
  - destruct Hok as [_ ->]. rewrite fmap_app. simpl in *.
    apply NoDup_app. split; [assumption|]. split.
    + intros x Hx Hin. apply list_elem_of_singleton in Hin. congruence.
    + apply NoDup_singleton.
  - destruct Hok as (_ & i & old & Hi & Hid & _ & _ & ->).
    rewrite (insert_same_id s i old card Hi Hid). assumption.
  - rewrite Hok. eapply sublist_NoDup; [eassumption|].
    apply fmap_sublist, sublist_filter.
  - destruct Hok as (i & c & Hi & Hid & _ & _ & _ & ->).
    rewrite (insert_same_id s i c (with_lastUsed c now) Hi eq_refl).
    assumption.
  - rewrite Hok. assumption.
  - rewrite Hok. assumption.
Qed.

(** C1, as the code has it.  [addCard] checks the fields of the card and
    nothing else: a card that passes validation is appended whether or not
    its id is stored already.  The ids of the stored cards are pairwise
    distinct in every store reached from the empty one by successful calls
    of which no [addCard] is given an id that is stored at that moment. *)
Theorem ids_distinct_when_adds_are_fresh (s : list Card) :
  reachable_fresh s ->
  NoDup (id <$> s)
  /\ forall card, CardManager.validateCard card = inr tt ->
       CardManager.addCard card s = (inr card, s ++ [card]).
Proof.
  intros Hs. split.
  - induction Hs as [|op s Hs IH Hfresh Hok]; [constructor|].
    apply store_after_ids_NoDup; assumption.
  - intros card Hv. rewrite addCard_unfold, Hv. reflexivity.
Qed.

(** ** [lastUsed] *)

Lemma find_insert_same_id cardId (s : list Card) i old card :
  CardManager.find (id card) s = Some old ->
  s !! i = Some old ->
  CardManager.findIndex (id card) s = Some i ->
  CardManager.find cardId (<[i := card]> s) =
  if decide (cardId = id card) then Some card else CardManager.find cardId s.
Proof.
  intros Hfind Hi Hidx.
  apply find_Some in Hfind as (i' & Hidx' & Hi' & Hid & Hfirst).
  assert (i' = i) by congruence. subst i'. clear Hidx'.
  assert (Hlen : i < length s) by (eapply lookup_lt_Some; eassumption).
  destruct (decide (cardId = id card)) as [->|Hne].
  - apply find_Some. exists i. split; [|split; [|split]].
    + unfold CardManager.findIndex.
      assert (E : list_find (CardManager.has_id (id card)) (<[i := card]> s)
                  = Some (i, card)).
      { apply list_find_Some. split; [|split].
        - apply list_lookup_insert_eq. assumption.
        - reflexivity.
        - intros j y Hj Hlt. rewrite list_lookup_insert_ne in Hj by lia.
          apply (Hfirst j y Hj Hlt). }
      rewrite E. reflexivity.
    + apply list_lookup_insert_eq. assumption.
    + reflexivity.
    + intros j y Hj Hlt. rewrite list_lookup_insert_ne in Hj by lia.
      apply (Hfirst j y Hj Hlt).
  - destruct (CardManager.find cardId s) as [c|] eqn:Hc.
    + apply find_Some in Hc as (k & _ & Hk & Hkid & Hkfirst).
      assert (k <> i) by (intros ->; congruence).
      apply find_Some. exists k. split; [|split; [|split]].
      * unfold CardManager.findIndex.
        assert (E : list_find (CardManager.has_id cardId) (<[i := card]> s)
                    = Some (k, c)).
        { apply list_find_Some. split; [|split].
          - rewrite list_lookup_insert_ne by lia. assumption.
          - assumption.
          - intros j y Hj Hlt. destruct (decide (j = i)) as [->|Hji].
            + rewrite list_lookup_insert_eq in Hj by assumption.
              injection Hj as <-. unfold CardManager.has_id. congruence.
            + rewrite list_lookup_insert_ne in Hj by lia.
              apply (Hkfirst j y Hj Hlt). }
        rewrite E. reflexivity.
      * rewrite list_lookup_insert_ne by lia. assumption.
      * assumption.
      * intros j y Hj Hlt. destruct (decide (j = i)) as [->|Hji].
        -- rewrite list_lookup_insert_eq in Hj by assumption.
           injection Hj as <-. congruence.
        -- rewrite list_lookup_insert_ne in Hj by lia.
           apply (Hkfirst j y Hj Hlt).
    + apply find_None. apply find_None in Hc.
      rewrite (insert_same_id s i old card Hi Hid). assumption.
Qed.

Lemma find_filter_other cardId other (s : list Card) :
  cardId <> other ->
  CardManager.find cardId (filter (fun c => ¬ CardManager.has_id other c) s)
  = CardManager.find cardId s.
Proof.
  intros Hne. induction s as [|c s IH]; [reflexivity|].
  rewrite filter_cons, (find_cons cardId c s).
  destruct (decide (¬ CardManager.has_id other c)) as [Hkeep|Hdrop].
  - rewrite find_cons, IH. reflexivity.
  - rewrite IH. destruct (decide (id c = cardId)) as [Hc|]; [|reflexivity].
    exfalso. apply Hdrop. unfold CardManager.has_id. congruence.
Qed.

Lemma find_filter_same cardId (s : list Card) :
  CardManager.find cardId (filter (fun c => ¬ CardManager.has_id cardId c) s)
  = None.
Proof.
  apply find_None. intros Hin.
  apply list_elem_of_fmap in Hin as (c & -> & Hc).
  apply list_elem_of_filter in Hc as [Hn _]. apply Hn. reflexivity.
Qed.


Lemma store_after_MarkUsed now cardId s :
  store_after (MarkUsed now cardId) s
  = snd (CardManager.updateCardLastUsed now cardId s).
Proof.
  unfold store_after. simpl. unfold Store.bind.
  destruct (CardManager.updateCardLastUsed now cardId s) as [[e|c] s'];
    reflexivity.
Qed.

Lemma succeeds_MarkUsed now cardId s :
  succeeds (MarkUsed now cardId) s <->
  exists c, fst (CardManager.updateCardLastUsed now cardId s) = inr c.
Proof.
  unfold succeeds. simpl. unfold Store.bind.
  destruct (CardManager.updateCardLastUsed now cardId s) as [[e|c] s'];
    simpl; split; intros [x Hx]; try discriminate; eauto.
Qed.

(** C10.  [updateCardLastUsed] on the id of a stored card leaves the
    length of the store, the card at every other position and every field
    but [lastUsed] of the card found as they were; the card found stays at
    its position, and when the call succeeds its [lastUsed] is the instant
    of the call. *)
Theorem markUsed_changes_only_lastUsed (now : Date) (cardId : string)
  (s : list Card) (c : Card) :
  CardManager.find cardId s = Some c ->
  exists i c',
    CardManager.findIndex cardId s = Some i
    /\ s !! i = Some c
    /\ store_after (MarkUsed now cardId) s !! i = Some c'
    /\ same_but_lastUsed c c'
    /\ length (store_after (MarkUsed now cardId) s) = length s
    /\ (forall j, j <> i ->
          store_after (MarkUsed now cardId) s !! j = s !! j)
    /\ (succeeds (MarkUsed now cardId) s ->
          c' = with_lastUsed c now /\ lastUsed c' = Some now).
Proof.
  intros Hfind.
  destruct (markUsed_effect now cardId s c Hfind)
    as (i & Hi & Hid & Hidx & Heq).
  rewrite store_after_MarkUsed, Heq.
  assert (Hlen : i < length s) by (eapply lookup_lt_Some; eassumption).
  exists i.
  destruct (CardManager.validateCard c) as [e|[]] eqn:Hv; simpl.
  - exists c. repeat split; try assumption; try reflexivity;
      apply succeeds_MarkUsed in H as [c0 H0];
      rewrite Heq in H0; discriminate.
  - exists (with_lastUsed c now).
    repeat split; try assumption; try reflexivity.
    + apply list_lookup_insert_eq. assumption.
    + apply length_insert.
    + intros j Hj. apply list_lookup_insert_ne. congruence.
Qed.

(** * Properties of the suggester *)

(** ** Comparisons and the [||] idiom *)

Lemma Qlt_bool_iff x y : Qlt_bool x y = true <-> (x < y)%Q.
Proof.
  unfold Qlt_bool. rewrite negb_true_iff. split.
  - intros H. apply Qnot_le_lt. intros Hle.
    apply Qle_bool_iff in Hle. congruence.
  - intros H. destruct (Qle_bool y x) eqn:E; [|reflexivity].
    apply Qle_bool_iff in E. exfalso. eapply Qlt_not_le; eassumption.
Qed.

Lemma Qlt_bool_false x y : Qlt_bool x y = false <-> (y <= x)%Q.
Proof.
  unfold Qlt_bool. rewrite negb_false_iff. apply Qle_bool_iff.
Qed.

Lemma or_number_Qeq (x : option Q) :
  (or_number x 0 == match x with Some q => q | None => 0 end)%Q.
Proof.
  destruct x as [q|]; simpl; [|reflexivity].
  destruct (Qeq_bool q 0) eqn:E; [|reflexivity].
  apply Qeq_bool_iff in E. symmetry. assumption.
Qed.

Lemma or_number_positive (x : option Q) :
  Qlt_bool 0 (or_number x 0) =
  match x with Some q => Qlt_bool 0 q | None => false end.
Proof.
  destruct x as [q|]; simpl; [|reflexivity].
  destruct (Qeq_bool q 0) eqn:E; [|reflexivity].
  apply Qeq_bool_iff in E. symmetry. apply Qlt_bool_false.
  rewrite E. apply Qle_refl.
Qed.

Lemma or_number_keeps_positive (x : option Q) :
  Qlt_bool 0 (or_number x 0) = true ->
  x = Some (or_number x 0).
Proof.
  destruct x as [q|]; simpl.
  - destruct (Qeq_bool q 0); [discriminate|reflexivity].
  - discriminate.
Qed.

Lemma days_since_lt_7 (now used : Date) :
  Qlt_bool (inject_Z (now - used) / (1000 * 60 * 60 * 24)) 7 = true
  <-> (now - used < Spec.seven_days)%Z.
Proof.
  rewrite Qlt_bool_iff. unfold Spec.seven_days.
  unfold Qlt, Qdiv, Qmult, Qinv, inject_Z. simpl. lia.
Qed.

Lemma hasPerks_iff card transaction :
  AICardSuggester.hasPerks card transaction = true
  <-> Spec.perks_present card transaction.
Proof.
  unfold AICardSuggester.hasPerks, Spec.perks_present.
  destruct (perks card !! category transaction) as [[|p l]|]; simpl.
  - split; [discriminate|]. intros (l' & [= <-] & Hne). congruence.
  - split; [|reflexivity]. intros _. eexists. split; [reflexivity|].
    discriminate.
  - split; [discriminate|]. intros (l' & [=] & _).
Qed.

(** C4.  The score of a card is the sum of the four terms of the scoring
    algorithm: the direct rate x 10 when it is present and positive,
    otherwise the rate of [OTHER] (0 when absent) x 5; 5 for a non-empty
    perk list of the category; 3 for a declared category; 1 when
    [lastUsed] is set and less than seven days before the instant of the
    call. *)
Theorem calculateScore_is_sum_of_terms (now : Date) (card : Card)
  (transaction : Transaction) :
  (AICardSuggester.calculateScore now card transaction
   == Spec.score now card transaction)%Q.
Proof.
  unfold AICardSuggester.calculateScore, Spec.score. cbv zeta.
  assert (H1 :
    ((if Qlt_bool 0 (or_number (cashback card !! category transaction) 0)
      then 0 + or_number (cashback card !! category transaction) 0 * 10
      else 0 + or_number (cashback card !! OTHER) 0 * 5)
     == Spec.cashback_points card transaction)%Q).
  { unfold Spec.cashback_points, Spec.direct_rate, Spec.fallback_rate.
    rewrite or_number_positive.
    destruct (cashback card !! category transaction) as [r|].
    - destruct (Qlt_bool 0 r) eqn:Hr.
      + rewrite (or_number_Qeq (Some r)). ring.
      + rewrite or_number_Qeq. ring.
    - rewrite or_number_Qeq. ring. }
  revert H1.
  generalize
    (if Qlt_bool 0 (or_number (cashback card !! category transaction) 0)
     then (0 + or_number (cashback card !! category transaction) 0 * 10)%Q
     else (0 + or_number (cashback card !! OTHER) 0 * 5)%Q).
  intros q0 H1.
  pose proof (hasPerks_iff card transaction) as Hp.
  destruct (AICardSuggester.hasPerks card transaction);
    destruct (decide (Spec.perks_present card transaction)) as [Hp'|Hp'];
    try (exfalso; apply Hp'; apply Hp; reflexivity);
    try (apply Hp in Hp'; discriminate);
    (destruct (decide (category transaction ∈ categories card)) as [Hc|Hc];
     [rewrite (bool_decide_eq_true_2 _ Hc)
     |rewrite (bool_decide_eq_false_2 _ Hc)]);
    (destruct (decide (Spec.recently_used now card)) as [Hr|Hr];
     [destruct Hr as (used & Hu & Hlt); rewrite Hu;
      apply days_since_lt_7 in Hlt; rewrite Hlt
     |destruct (lastUsed card) as [used|] eqn:Hu;
      [destruct (Qlt_bool _ 7) eqn:Hlt;
       [exfalso; apply Hr; exists used; split;
        [assumption|apply days_since_lt_7; assumption]|]|]]);
    rewrite H1; ring.
Qed.

(** ** [Array_sort] with the comparator [(a, b) => key b - key a] *)

Section DescendingSort.

Context {A : Type} (key : A -> Q).

Lemma descending_after x y :
  Qlt_bool 0 (descending key x y) = true <-> (key x < key y)%Q.
Proof.
  unfold descending, Qminus. rewrite Qlt_bool_iff.
  symmetry. apply Qlt_minus_iff.
Qed.

Lemma sort_insert_perm x l :
  Permutation (sort_insert (descending key) x l) (x :: l).
Proof.
  induction l as [|y l IH]; simpl; [reflexivity|].
  destruct (Qlt_bool 0 (descending key x y)); [|reflexivity].
  rewrite IH. apply perm_swap.
Qed.

Lemma Array_sort_perm l : Permutation (Array_sort (descending key) l) l.
Proof.
  induction l as [|x l IH]; simpl; [reflexivity|].
  unfold Array_sort in *. simpl. rewrite sort_insert_perm, IH. reflexivity.
Qed.

Lemma sort_insert_sorted x l :
  StronglySorted (fun a b => (key b <= key a)%Q) l ->
  StronglySorted (fun a b => (key b <= key a)%Q)
    (sort_insert (descending key) x l).
Proof.
  induction 1 as [|y l Hl IH Hy]; simpl.
  - repeat constructor.
  - destruct (Qlt_bool 0 (descending key x y)) eqn:E.
    + apply descending_after in E. constructor; [assumption|].
      rewrite sort_insert_perm. constructor; [|assumption].
      apply Qlt_le_weak. assumption.
    + assert (Hxy : (key y <= key x)%Q).
      { apply Qnot_lt_le. intros Hlt. apply descending_after in Hlt.
        congruence. }
      constructor; [constructor; assumption|].
      constructor; [assumption|].
      rewrite Forall_forall in Hy |- *. intros z Hz.
      eapply Qle_trans; [apply Hy; assumption|assumption].
Qed.

Lemma Array_sort_sorted l :
  StronglySorted (fun a b => (key b <= key a)%Q)
    (Array_sort (descending key) l).
Proof.
  induction l as [|x l IH]; [constructor|].
  apply sort_insert_sorted. assumption.
Qed.

(** Stability: elements of equal key keep their order. *)
Lemma sort_insert_filter q x l :
  filter (fun a => (key a == q)%Q) (sort_insert (descending key) x l)
  = filter (fun a => (key a == q)%Q) (x :: l).
Proof.
  induction l as [|y l IH]; simpl; [reflexivity|].
  destruct (Qlt_bool 0 (descending key x y)) eqn:E; [|reflexivity].
  apply descending_after in E.
  rewrite (filter_cons _ y), IH, !filter_cons.
  destruct (decide (key x == q)%Q) as [Hx|Hx];
    destruct (decide (key y == q)%Q) as [Hy|Hy]; try reflexivity.
  exfalso. rewrite Hx, Hy in E. apply (Qlt_irrefl q). assumption.
Qed.

Lemma Array_sort_stable q l :
  filter (fun a => (key a == q)%Q) (Array_sort (descending key) l)
  = filter (fun a => (key a == q)%Q) l.
Proof.
  induction l as [|x l IH]; [reflexivity|].
  change (Array_sort (descending key) (x :: l))
    with (sort_insert (descending key) x (Array_sort (descending key) l)).
  rewrite sort_insert_filter, !filter_cons, IH. reflexivity.
Qed.

(** The first element of the sorted list is the first of the elements of
    greatest key. *)
Lemma Array_sort_head_split l1 x l2 :
  (forall y, y ∈ l1 -> (key y < key x)%Q) ->
  (forall y, y ∈ l2 -> (key y <= key x)%Q) ->
  head (Array_sort (descending key) (l1 ++ x :: l2)) = Some x.
Proof.
  intros H1 H2. induction l1 as [|z l1 IH].
  - simpl.
    change (Array_sort (descending key) (x :: l2))
      with (sort_insert (descending key) x (Array_sort (descending key) l2)).
    destruct (Array_sort (descending key) l2) as [|y l] eqn:E; [reflexivity|].
    simpl. destruct (Qlt_bool 0 (descending key x y)) eqn:Hxy; [|reflexivity].
    exfalso. apply descending_after in Hxy.
    assert (Hy : y ∈ l2).
    { rewrite <- (Array_sort_perm l2), E. apply list_elem_of_here. }
    apply (Qlt_not_le _ _ Hxy). apply H2. assumption.
  - change (Array_sort (descending key) ((z :: l1) ++ x :: l2))
      with (sort_insert (descending key) z
              (Array_sort (descending key) (l1 ++ x :: l2))).
    destruct (Array_sort (descending key) (l1 ++ x :: l2)) as [|y l] eqn:E.
    + simpl in IH. discriminate IH.
      intros y Hy. apply H1. apply list_elem_of_further. assumption.
    + simpl in IH. assert (y = x).
      { assert (Some y = Some x); [|congruence]. apply IH.
        intros w Hw. apply H1. apply list_elem_of_further. assumption. }
      subst y. simpl.
      assert (Hzx : Qlt_bool 0 (descending key z x) = true).
      { apply descending_after. apply H1. apply list_elem_of_here. }
      rewrite Hzx. reflexivity.
Qed.

Lemma first_greatest_split l :
  l <> [] ->
  exists l1 x l2, l = l1 ++ x :: l2
    /\ (forall y, y ∈ l1 -> (key y < key x)%Q)
    /\ (forall y, y ∈ l2 -> (key y <= key x)%Q).
Proof.
  induction l as [|a l IH]; [congruence|]. intros _.
  destruct l as [|b l].
  - exists [], a, []. split; [reflexivity|].
    split; intros y Hy; inversion Hy.
  - destruct IH as (l1 & x & l2 & Heq & H1 & H2); [discriminate|].
    destruct (Qlt_le_dec (key a) (key x)) as [Hlt|Hle].
    + exists (a :: l1), x, l2. rewrite Heq. split; [reflexivity|].
      split; [|assumption].
      intros y Hy. apply elem_of_cons in Hy as [->|Hy]; auto.
    + exists [], a, (b :: l). split; [reflexivity|].
      split; [intros y Hy; inversion Hy|].
      intros y Hy. rewrite Heq in Hy.
      apply elem_of_app in Hy as [Hy|Hy].
      * apply Qlt_le_weak. eapply Qlt_le_trans; [apply H1|]; eassumption.
      * apply elem_of_cons in Hy as [->|Hy]; [assumption|].
        eapply Qle_trans; [apply H2|]; eassumption.
Qed.

Lemma Array_sort_head_first_greatest l :
  l <> [] ->
  exists k x, l !! k = Some x
    /\ head (Array_sort (descending key) l) = Some x
    /\ (forall j y, l !! j = Some y -> (key y <= key x)%Q)
    /\ (forall j y, l !! j = Some y -> j < k -> (key y < key x)%Q).
Proof.
  intros Hne.
  destruct (first_greatest_split l Hne) as (l1 & x & l2 & -> & H1 & H2).
  exists (length l1), x. split; [|split; [|split]].
  - rewrite lookup_app_r by lia. rewrite Nat.sub_diag. reflexivity.
  - apply Array_sort_head_split; assumption.
  - intros j y Hj.
    assert (Hy : y ∈ l1 ++ x :: l2)
      by (eapply list_elem_of_lookup_2; eassumption).
    apply elem_of_app in Hy as [Hy|Hy].
    + apply Qlt_le_weak. auto.
    + apply elem_of_cons in Hy as [->|Hy]; [apply Qle_refl|auto].
  - intros j y Hj Hlt. rewrite lookup_app_l in Hj by assumption.
    apply H1. eapply list_elem_of_lookup_2. eassumption.
Qed.

End DescendingSort.

(** ** [suggestCard] *)

Section Suggestion.

Variable Number_toString : Q -> string.
Variable clock : nat -> Date.
Variable transaction : Transaction.

Lemma scoredCards_sort cards :
  AICardSuggester.scoredCards clock transaction cards
  = Array_sort (descending snd)
      (AICardSuggester.scored clock transaction cards).
Proof. reflexivity. Qed.

Lemma scored_lookup cards j :
  AICardSuggester.scored clock transaction cards !! j =
  (fun card =>
     (card, AICardSuggester.calculateScore (clock j) card transaction))
  <$> cards !! j.
Proof. unfold AICardSuggester.scored. apply list_lookup_imap. Qed.

Lemma scored_nil cards :
  AICardSuggester.scored clock transaction cards = [] -> cards = [].
Proof.
  intros H. apply (f_equal length) in H.
  unfold AICardSuggester.scored in H.
  rewrite length_imap in H. destruct cards; [reflexivity|discriminate].
Qed.

Lemma suggestCard_head cards best points :
  head (AICardSuggester.scoredCards clock transaction cards)
  = Some (best, points) ->
  exists s,
    AICardSuggester.suggestCard Number_toString clock transaction cards
    = Some s
    /\ CardSuggestion.card s = best
    /\ CardSuggestion.reason s
       = AICardSuggester.generateReason Number_toString best transaction
    /\ CardSuggestion.cashbackAmount s
       = (if Qlt_bool 0 (or_number (cashback best !! category transaction) 0)
          then Some (amount transaction
                     * or_number (cashback best !! category transaction) 0
                     / 100)%Q
          else None)
    /\ CardSuggestion.perks s = perks best !! category transaction.
Proof.
  intros Hhead. unfold AICardSuggester.suggestCard.
  destruct cards as [|c cards]; [discriminate Hhead|].
  simpl length. simpl Nat.eqb. cbv iota.
  destruct (AICardSuggester.scoredCards clock transaction (c :: cards))
    as [|[b p] rest]; [discriminate|].
  injection Hhead as -> ->. eexists. split; [reflexivity|].
  simpl. auto.
Qed.

(** C9.  [scoredCards] is the array of scored cards sorted by descending
    score with a stable sort: a permutation of it, in descending order of
    score, in which the cards of any one score keep their input order.
    [suggestCard] returns its first element, which is the card at the
    first position of the input that has the greatest score; so of two
    positions with identical scores the later one is never the one
    returned. *)
Theorem suggestCard_stable_first (cards : list Card) :
  cards <> [] ->
  Permutation (AICardSuggester.scoredCards clock transaction cards)
              (AICardSuggester.scored clock transaction cards)
  /\ StronglySorted (fun a b => (snd b <= snd a)%Q)
       (AICardSuggester.scoredCards clock transaction cards)
  /\ (forall q,
        filter (fun a => (snd a == q)%Q)
          (AICardSuggester.scoredCards clock transaction cards)
        = filter (fun a => (snd a == q)%Q)
            (AICardSuggester.scored clock transaction cards))
  /\ exists s k best,
       AICardSuggester.suggestCard Number_toString clock transaction cards
       = Some s
       /\ CardSuggestion.card s = best
       /\ cards !! k = Some best
       /\ head (AICardSuggester.scoredCards clock transaction cards)
          = Some (best, AICardSuggester.calculateScore (clock k) best
                          transaction)
       /\ (forall j c, cards !! j = Some c ->
             (AICardSuggester.calculateScore (clock j) c transaction
              <= AICardSuggester.calculateScore (clock k) best transaction)%Q)
       /\ (forall j c, cards !! j = Some c -> j < k ->
             (AICardSuggester.calculateScore (clock j) c transaction
              < AICardSuggester.calculateScore (clock k) best transaction)%Q)
       /\ (forall i j ci cj, i < j ->
             cards !! i = Some ci -> cards !! j = Some cj ->
             (AICardSuggester.calculateScore (clock i) ci transaction
              == AICardSuggester.calculateScore (clock j) cj transaction)%Q ->
             k <> j).
Proof.
  intros Hne. rewrite scoredCards_sort.
  split; [apply Array_sort_perm|].
  split; [apply Array_sort_sorted|].
  split; [intros q; apply Array_sort_stable|].
  assert (Hsc : AICardSuggester.scored clock transaction cards <> [])
    by (intros H; apply Hne, scored_nil, H).
  destruct (Array_sort_head_first_greatest snd
              (AICardSuggester.scored clock transaction cards) Hsc)
    as (k & [best points] & Hk & Hhead & Hall & Hbefore).
  rewrite scored_lookup in Hk.
  destruct (cards !! k) as [c|] eqn:Hck; [|discriminate].
  simpl in Hk. injection Hk as -> <-.
  rewrite <- scoredCards_sort in Hhead.
  destruct (suggestCard_head cards _ _ Hhead) as (s & Hs & Hcard & _).
  rewrite scoredCards_sort in Hhead.
  assert (Hb : forall j c0, cards !! j = Some c0 -> j < k ->
    (AICardSuggester.calculateScore (clock j) c0 transaction
     < AICardSuggester.calculateScore (clock k) best transaction)%Q).
  { intros j c0 Hj Hlt.
    apply (Hbefore j (c0, AICardSuggester.calculateScore (clock j) c0
                            transaction)); [|assumption].
    rewrite scored_lookup, Hj. reflexivity. }
  exists s, k, best. repeat split; try assumption.
  - intros j c0 Hj.
    apply (Hall j (c0, AICardSuggester.calculateScore (clock j) c0
                         transaction)).
    rewrite scored_lookup, Hj. reflexivity.
  - intros i j ci cj Hij Hi Hj Htie ->.
    assert (cj = best) by congruence. subst cj.
    apply (Qlt_irrefl
             (AICardSuggester.calculateScore (clock j) best transaction)).
    rewrite <- Htie at 1. apply (Hb i ci Hi Hij).
Qed.

End Suggestion.

(** ** The suggestion built for the chosen card *)

Lemma suggestCard_Some Number_toString clock transaction cards s :
  AICardSuggester.suggestCard Number_toString clock transaction cards
  = Some s ->
  CardSuggestion.reason s
  = AICardSuggester.generateReason Number_toString (CardSuggestion.card s)
      transaction
  /\ CardSuggestion.cashbackAmount s
     = (if Qlt_bool 0
             (or_number
                (cashback (CardSuggestion.card s) !! category transaction) 0)
        then Some (amount transaction
                   * or_number
                       (cashback (CardSuggestion.card s)
                          !! category transaction) 0
                   / 100)%Q
        else None)
  /\ CardSuggestion.perks s
     = perks (CardSuggestion.card s) !! category transaction.
Proof.
  unfold AICardSuggester.suggestCard.
  destruct (length cards =? 0)%nat; [discriminate|].
  destruct (AICardSuggester.scoredCards clock transaction cards)
    as [|[best points] rest]; [discriminate|].
  intros [= <-]. simpl. auto.
Qed.

(** The rate that [generateReason] prints, on a card without negative
    rates. *)
Lemma reason_rate_effective card transaction :
  Spec.nonnegative_rates card ->
  let printed :=
    or_number (or_undefined (cashback card !! category transaction)
                            (cashback card !! OTHER)) 0 in
  (Qlt_bool 0 printed = true ->
     printed = Spec.effective_rate card transaction)
  /\ (Qlt_bool 0 printed = true <->
      (0 < Spec.effective_rate card transaction)%Q)
  /\ (Qlt_bool 0 printed = false <->
      (Spec.effective_rate card transaction == 0)%Q).
Proof.
  intros Hrates printed.
  assert (Hother : (0 <= Spec.fallback_rate card)%Q
                   /\ (Qlt_bool 0 (or_number (cashback card !! OTHER) 0) = true
                       -> or_number (cashback card !! OTHER) 0
                          = Spec.fallback_rate card)
                   /\ (or_number (cashback card !! OTHER) 0
                       == Spec.fallback_rate card)%Q).
  { unfold Spec.fallback_rate.
    split; [|split; [|apply or_number_Qeq]].
    - destruct (cashback card !! OTHER) as [q|] eqn:E; [|apply Qle_refl].
      apply (Hrates OTHER q E).
    - intros H. apply or_number_keeps_positive in H.
      destruct (cashback card !! OTHER) as [q|]; [|discriminate].
      congruence. }
  destruct Hother as (Hf0 & Hfeq & HfQ).
  assert (Hcases :
    (printed = Spec.effective_rate card transaction
     /\ Qlt_bool 0 printed = true)
    \/ ((printed == Spec.effective_rate card transaction)%Q
        /\ Qlt_bool 0 printed = false)).
  { subst printed. unfold Spec.effective_rate, Spec.direct_rate.
    destruct (cashback card !! category transaction) as [r|] eqn:Er; simpl.
    - pose proof (Hrates _ _ Er) as Hr0.
      destruct (Qeq_bool r 0) eqn:Ez.
      + apply Qeq_bool_iff in Ez.
        assert (Hnr : Qlt_bool 0 r = false)
          by (apply Qlt_bool_false; rewrite Ez; apply Qle_refl).
        rewrite Hnr.
        destruct (Qlt_bool 0 (or_number (cashback card !! OTHER) 0)) eqn:Ep.
        * left. split; [apply Hfeq|]; reflexivity.
        * right. split; [assumption|reflexivity].
      + assert (Hpr : Qlt_bool 0 r = true).
        { apply Qlt_bool_iff. apply Qle_lteq in Hr0 as [Hlt|Heq];
            [assumption|].
          exfalso. symmetry in Heq. apply Qeq_bool_iff in Heq. congruence. }
        unfold or_number. rewrite Ez, Hpr.
        left. split; reflexivity.
    - destruct (Qlt_bool 0 (or_number (cashback card !! OTHER) 0)) eqn:Ep.
      + left. split; [apply Hfeq|]; reflexivity.
      + right. split; [assumption|reflexivity]. }
  assert (Heff0 : (0 <= Spec.effective_rate card transaction)%Q).
  { unfold Spec.effective_rate, Spec.direct_rate.
    destruct (cashback card !! category transaction) as [r|] eqn:Er;
      [|assumption].
    destruct (Qlt_bool 0 r); [|assumption]. apply (Hrates _ _ Er). }
  destruct Hcases as [[Heq Hp]|[Heq Hp]].
  - split; [intros _; assumption|]. split.
    + split; [|intros _; assumption].
      intros _. rewrite <- Heq. apply Qlt_bool_iff. assumption.
    + split; [congruence|]. intros Hz. exfalso.
      apply Qlt_bool_iff in Hp. rewrite Heq, Hz in Hp.
      apply (Qlt_irrefl 0). assumption.
  - split; [congruence|]. split.
    + split; [congruence|]. intros Hpos. exfalso.
      apply Qlt_bool_false in Hp. rewrite Heq in Hp.
      apply (Qlt_not_le _ _ Hpos). assumption.
    + split; [|intros _; assumption]. intros _.
      apply Qlt_bool_false in Hp. rewrite Heq in Hp.
      apply Qle_antisym; assumption.
Qed.

(** C5, as the code has it.  For a chosen card none of whose cashback
    rates is negative, the reason of a suggestion follows the four rows of
    the decision table, the rate being the effective rate of scoring
    step 1 (the direct rate when present and positive, otherwise the rate
    of [OTHER], 0 when absent); on such a card the four rows cover all
    cases. *)
Theorem reason_follows_decision_table (Number_toString : Q -> string)
  (clock : nat -> Date) (transaction : Transaction) (cards : list Card)
  (s : CardSuggestion.t) :
  AICardSuggester.suggestCard Number_toString clock transaction cards
  = Some s ->
  Spec.nonnegative_rates (CardSuggestion.card s) ->
  let best := CardSuggestion.card s in
  let rate := Spec.effective_rate best transaction in
  let bought := Category_value (category transaction) in
  ((0 < rate)%Q -> Spec.perks_present best transaction ->
     CardSuggestion.reason s
     = (name best ++ " offers " ++ Number_toString rate
        ++ "% cashback on " ++ bought
        ++ " purchases and has additional perks.")%string)
  /\ ((0 < rate)%Q -> ~ Spec.perks_present best transaction ->
        CardSuggestion.reason s
        = (name best ++ " offers " ++ Number_toString rate
           ++ "% cashback on " ++ bought ++ " purchases.")%string)
  /\ ((rate == 0)%Q -> Spec.perks_present best transaction ->
        CardSuggestion.reason s
        = (name best ++ " offers special perks for " ++ bought
           ++ " purchases.")%string)
  /\ ((rate == 0)%Q -> ~ Spec.perks_present best transaction ->
        CardSuggestion.reason s
        = (name best ++ " is the best option for this purchase.")%string)
  /\ ((0 < rate)%Q \/ (rate == 0)%Q).
Proof.
  intros Hs Hrates best rate bought.
  destruct (suggestCard_Some _ _ _ _ _ Hs) as (Hreason & _ & _).
  fold best in Hreason. rewrite Hreason.
  destruct (reason_rate_effective best transaction Hrates)
    as (Heq & Hpos & Hzero).
  fold rate in Heq, Hpos, Hzero.
  pose proof (hasPerks_iff best transaction) as Hperks.
  unfold AICardSuggester.generateReason. cbv zeta.
  destruct (Qlt_bool 0 _) eqn:Ep.
  - rewrite (Heq eq_refl).
    assert (Hr : (0 < rate)%Q) by (apply Hpos; reflexivity).
    assert (Hnz : ~ (rate == 0)%Q).
    { intros Hz. rewrite Hz in Hr. apply (Qlt_irrefl 0). assumption. }
    destruct (AICardSuggester.hasPerks best transaction); simpl.
    + assert (Hpp : Spec.perks_present best transaction)
        by (apply Hperks; reflexivity).
      repeat split; try (intros; contradiction); auto.
    + assert (Hpp : ~ Spec.perks_present best transaction)
        by (intros H; apply Hperks in H; discriminate).
      repeat split; try (intros; contradiction); auto.
  - assert (Hr : (rate == 0)%Q) by (apply Hzero; reflexivity).
    assert (Hnp : ~ (0 < rate)%Q).
    { intros Hlt. rewrite Hr in Hlt. apply (Qlt_irrefl 0). assumption. }
    destruct (AICardSuggester.hasPerks best transaction); simpl.
    + assert (Hpp : Spec.perks_present best transaction)
        by (apply Hperks; reflexivity).
      repeat split; try (intros; contradiction); auto.
    + assert (Hpp : ~ Spec.perks_present best transaction)
        by (intros H; apply Hperks in H; discriminate).
      repeat split; try (intros; contradiction); auto.
Qed.

(** What [cashbackAmount] is computed from: the direct rate alone. *)
Lemma cashbackAmount_from_direct_rate Number_toString clock transaction
  cards s :
  AICardSuggester.suggestCard Number_toString clock transaction cards
  = Some s ->
  Spec.same_amount (CardSuggestion.cashbackAmount s)
    match Spec.direct_rate (CardSuggestion.card s) transaction with
    | Some r => Some (amount transaction * (r / 100))%Q
    | None => None
    end.
Proof.
  intros Hs. destruct (suggestCard_Some _ _ _ _ _ Hs) as (_ & -> & _).
  rewrite or_number_positive. unfold Spec.direct_rate.
  destruct (cashback (CardSuggestion.card s) !! category transaction)
    as [r|]; [|exact I].
  destruct (Qlt_bool 0 r) eqn:Hr; [|exact I].
  simpl. rewrite (or_number_Qeq (Some r)). field.
Qed.

(** C2, at a card whose only rate is the one of [OTHER] and a purchase of
    100 in another category: the effective rate is 1 and the reason quotes
    it, the amount that goes with it is 1, yet the suggestion carries no
    [cashbackAmount]. *)
Theorem cashbackAmount_omitted_under_fallback_rate :
  (Spec.effective_rate Sample.flat Sample.checkup == 1)%Q
  /\ Spec.same_amount (Spec.cashbackAmount Sample.flat Sample.checkup)
       (Some 1%Q)
  /\ exists s,
       AICardSuggester.suggestCard Sample.print_whole Sample.noon
         Sample.checkup [Sample.flat] = Some s
       /\ CardSuggestion.card s = Sample.flat
       /\ CardSuggestion.reason s
          = "Flat One offers 1% cashback on healthcare purchases."
       /\ CardSuggestion.cashbackAmount s = None.
Proof.
  split; [reflexivity|]. split; [reflexivity|].
  eexists. split; [reflexivity|]. repeat split.
Qed.

(** * The properties at sample data *)

Lemma sample_reachable_chase : reachable [Sample.chase].
Proof.
  apply (reachable_step (Add Sample.chase) [] reachable_empty).
  eexists. reflexivity.
Defined.

Lemma sample_reachable_fresh_chase : reachable_fresh [Sample.chase].
Proof.
  apply (reachable_fresh_step (Add Sample.chase) [] reachable_fresh_empty).
  - simpl. apply not_elem_of_nil.
  - eexists. reflexivity.
Defined.

Lemma sample_valid_rates_amex : Spec.valid_rates Sample.amex.
Proof.
  intros k r. destruct k; vm_compute; intros H;
    try discriminate H; injection H as <-; split; discriminate.
Defined.

Lemma valid_rates_nonnegative card :
  Spec.valid_rates card -> Spec.nonnegative_rates card.
Proof. intros H k r Hk. apply (H k r Hk). Defined.

(** C5, as stated, fails: with a negative direct rate the score falls back
    to the rate of [OTHER], so the effective rate is 2 and there are no
    perks, yet the reason keeps the negative rate and names no rate. *)
Lemma reason_keeps_negative_direct_rate :
  exists s,
    AICardSuggester.suggestCard Sample.print_whole Sample.noon Sample.dinner
      [Sample.penalty] = Some s
    /\ CardManager.validateCard (CardSuggestion.card s) = inr tt
    /\ (Spec.effective_rate (CardSuggestion.card s) Sample.dinner == 2)%Q
    /\ (0 < Spec.effective_rate (CardSuggestion.card s) Sample.dinner)%Q
    /\ ~ Spec.perks_present (CardSuggestion.card s) Sample.dinner
    /\ CardSuggestion.reason s
       = "Penalty is the best option for this purchase."
    /\ CardSuggestion.reason s
       <> (name (CardSuggestion.card s) ++ " offers "
           ++ Sample.print_whole
                (Spec.effective_rate (CardSuggestion.card s) Sample.dinner)
           ++ "% cashback on "
           ++ Category_value (category Sample.dinner)
           ++ " purchases.")%string.
Proof.
  eexists. split; [reflexivity|]. split; [reflexivity|].
  split; [reflexivity|]. split; [reflexivity|].
  split; [intros (l & Hl & _); discriminate Hl|].
  split; [reflexivity|]. vm_compute. discriminate.
Qed.

(** C1, as stated, fails: adding the same valid card twice succeeds, and
    the store then holds two cards of one id. *)
Lemma duplicate_id_is_accepted :
  reachable [Sample.chase; Sample.chase]
  /\ ~ NoDup (id <$> [Sample.chase; Sample.chase])
  /\ CardManager.addCard Sample.chase [Sample.chase]
     = (inr Sample.chase, [Sample.chase; Sample.chase]).
Proof.
  split; [|split].
  - apply (reachable_step (Add Sample.chase) [Sample.chase]
             sample_reachable_chase).
    eexists. reflexivity.
  - intros H. apply NoDup_cons in H as [H _]. apply H. simpl.
    apply list_elem_of_here.
  - reflexivity.
Qed.

Lemma ids_distinct_when_adds_are_fresh_witness :
  NoDup (id <$> [Sample.chase])
  /\ CardManager.addCard Sample.chase [Sample.chase]
     = (inr Sample.chase, [Sample.chase; Sample.chase]).
Proof.
  destruct (ids_distinct_when_adds_are_fresh [Sample.chase]
              sample_reachable_fresh_chase) as [Hnd Hadd].
  split; [exact Hnd|]. apply (Hadd Sample.chase). reflexivity.
Defined.



Lemma failing_write_leaves_store_unchanged_witness :
  fst (CardManager.getCards (store_after (Delete "9") [Sample.chase]))
  = fst (CardManager.getCards [Sample.chase])
  /\ CardManager.addCard Sample.nameless [Sample.chase]
     = (inl (ValidationError NameRequired), [Sample.chase])
  /\ CardManager.updateCard Sample.amex [Sample.chase]
     = (inl (NotFoundError "2"), [Sample.chase])
  /\ CardManager.updateCardLastUsed 5%Z "9" [Sample.chase]
     = (inl (NotFoundError "9"), [Sample.chase]).
Proof.
  destruct (failing_write_leaves_store_unchanged [Sample.chase])
    as (Hany & Hinvalid & Hupdate & Habsent).
  split; [|split; [|split]].
  - apply (Hany (Delete "9") (NotFoundError "9")). reflexivity.
  - apply (Hinvalid Sample.nameless (ValidationError NameRequired)).
    reflexivity.
  - apply (Hupdate Sample.amex); [reflexivity|].
    vm_compute. intros H. inversion H as [|? ? ? H']. inversion H'.
  - apply (Habsent "9").
    vm_compute. intros H. inversion H as [|? ? ? H']. inversion H'.
Defined.

Lemma markUsed_never_fails_on_stored_id_witness :
  exists c',
    fst (CardManager.updateCardLastUsed 7%Z (id Sample.chase) [Sample.chase])
    = inr c'
    /\ id c' = id Sample.chase /\ lastUsed c' = Some 7%Z.
Proof.
  apply (markUsed_never_fails_on_stored_id [Sample.chase] Sample.chase 7%Z).
  - exact sample_reachable_chase.
  - apply list_elem_of_here.
Defined.

Lemma add_then_getById_roundtrip_witness :
  CardManager.addCard Sample.amex [Sample.chase]
  = (inr Sample.amex, [Sample.chase; Sample.amex])
  /\ (CardManager.addCard Sample.amex
      ;;; CardManager.getCardById (id Sample.amex))%store [Sample.chase]
     = (inr (Some Sample.amex), [Sample.chase; Sample.amex]).
Proof.
  apply (add_then_getById_roundtrip [Sample.chase] Sample.amex).
  - reflexivity.
  - vm_compute. intros H. inversion H as [|? ? ? H']. inversion H'.
Defined.

Lemma markUsed_changes_only_lastUsed_witness :
  exists i c',
    [Sample.chase; Sample.amex] !! i = Some Sample.chase
    /\ store_after (MarkUsed 5%Z "1") [Sample.chase; Sample.amex] !! i
       = Some c'
    /\ same_but_lastUsed Sample.chase c'
    /\ forall j, j <> i ->
         store_after (MarkUsed 5%Z "1") [Sample.chase; Sample.amex] !! j
         = [Sample.chase; Sample.amex] !! j.
Proof.
  destruct (markUsed_changes_only_lastUsed 5%Z "1"
              [Sample.chase; Sample.amex] Sample.chase eq_refl)
    as (i & c' & _ & Hi & Hi' & Hsame & _ & Hothers & _).
  exists i, c'. split; [exact Hi|]. split; [exact Hi'|].
  split; [exact Hsame|exact Hothers].
Defined.

Lemma reason_follows_decision_table_witness :
  exists s,
    AICardSuggester.suggestCard Sample.print_whole Sample.noon Sample.dinner
      [Sample.chase; Sample.amex] = Some s
    /\ CardSuggestion.reason s
       = "Amex Gold offers 4% cashback on dining purchases and has additional perks.".
Proof.
  eexists. split; [reflexivity|].
  refine (proj1 (reason_follows_decision_table Sample.print_whole
                   Sample.noon Sample.dinner [Sample.chase; Sample.amex]
                   _ eq_refl
                   (valid_rates_nonnegative _ sample_valid_rates_amex))
            _ _).
  - reflexivity.
  - eexists. split; [reflexivity|discriminate].
Defined.

Lemma suggestCard_stable_first_witness :
  exists s k,
    AICardSuggester.suggestCard Sample.print_whole Sample.noon
      Sample.checkup [Sample.flat; Sample.flat_twin] = Some s
    /\ [Sample.flat; Sample.flat_twin] !! k = Some (CardSuggestion.card s)
    /\ k <> 1.
Proof.
  assert (Hne : [Sample.flat; Sample.flat_twin] <> []) by discriminate.
  destruct (suggestCard_stable_first Sample.print_whole Sample.noon
              Sample.checkup [Sample.flat; Sample.flat_twin] Hne)
    as (_ & _ & _ & s & k & best & Hs & Hcard & Hk & _ & _ & _ & Htie).
  exists s, k. split; [exact Hs|]. split; [congruence|].
  apply (Htie 0 1 Sample.flat Sample.flat_twin); try reflexivity. lia.
Defined.

(** * Further properties of the card store *)

Lemma digits_between_spec lo hi s :
  digits_between lo hi s = true <->
  all_digits s = true /\ lo <= String.length s <= hi.
Proof.
  unfold digits_between. rewrite !andb_true_iff, !Nat.leb_le. tauto.
Qed.

Lemma matches_expiry_spec s :
  matches_expiry s = true <->
  exists a b c d,
    s = String a (String b (String "/" (String c (String d EmptyString))))
    /\ is_digit a = true /\ is_digit b = true
    /\ is_digit c = true /\ is_digit d = true.
Proof.
  split.
  - destruct s as [|a [|b [|sep [|c [|d [|e s]]]]]]; simpl;
      try discriminate.
    rewrite !andb_true_iff. intros ((((Ha & Hb) & Hsep) & Hc) & Hd).
    apply Ascii.eqb_eq in Hsep. subst sep. exists a, b, c, d. auto.
  - intros (a & b & c & d & -> & Ha & Hb & Hc & Hd). simpl.
    rewrite Ha, Hb, Hc, Hd. reflexivity.
Qed.

Lemma is_empty_false s : is_empty s = false <-> s <> EmptyString.
Proof. destruct s; simpl; split; congruence. Qed.

Lemma validateCard_accepts card :
  CardManager.validateCard card = inr tt <->
  id card <> EmptyString /\ name card <> EmptyString
  /\ cardholderName card <> EmptyString
  /\ digits_between 13 19 (remove_spaces (number card)) = true
  /\ matches_expiry (expiry card) = true
  /\ digits_between 3 4 (cvv card) = true.
Proof.
  rewrite <- !is_empty_false. split.
  - unfold CardManager.validateCard, CardManager.throw_if.
    repeat match goal with
           | |- context [if ?b then _ else _] => destruct b eqn:?
           end; try discriminate.
    intros _.
    repeat match goal with
           | H : negb _ = false |- _ => apply negb_false_iff in H
           end.
    repeat split; assumption.
  - intros (H1 & H2 & H3 & H4 & H5 & H6).
    assert (Hn : is_empty (number card) = false)
      by (destruct (number card); [discriminate H4|reflexivity]).
    assert (He : is_empty (expiry card) = false)
      by (destruct (expiry card); [discriminate H5|reflexivity]).
    assert (Hc : is_empty (cvv card) = false)
      by (destruct (cvv card); [discriminate H6|reflexivity]).
    unfold CardManager.validateCard, CardManager.throw_if.
    rewrite H1, H2, H3, H4, H5, H6, Hn, He, Hc. reflexivity.
Qed.

(** X1.  [validateCard] accepts a card exactly when its id, name and
    cardholder name are not empty, its number without white space is 13 to
    19 digits, its expiry is two digits, a slash and two digits, and its
    CVV is 3 or 4 digits.  Nothing else is checked: any month, any year
    and any digits pass, and the other fields are not read. *)
Theorem validateCard_accepts_exactly (card : Card) :
  CardManager.validateCard card = inr tt <->
  id card <> EmptyString /\ name card <> EmptyString
  /\ cardholderName card <> EmptyString
  /\ (all_digits (remove_spaces (number card)) = true
      /\ 13 <= String.length (remove_spaces (number card)) <= 19)
  /\ (exists a b c d,
        expiry card
        = String a (String b (String "/" (String c (String d EmptyString))))
        /\ is_digit a = true /\ is_digit b = true
        /\ is_digit c = true /\ is_digit d = true)
  /\ (all_digits (cvv card) = true /\ 3 <= String.length (cvv card) <= 4).
Proof.
  rewrite validateCard_accepts, !digits_between_spec, matches_expiry_spec.
  reflexivity.
Qed.

(** X2.  Every card of a store reached from the empty one by successful
    calls is well formed: the three names are not empty, the number
    without white space is 13 to 19 digits, the expiry is two digits, a
    slash and two digits, and the CVV is 3 or 4 digits. *)
Theorem stored_cards_are_well_formed (s : list Card) (c : Card) :
  reachable s -> c ∈ s ->
  id c <> EmptyString /\ name c <> EmptyString
  /\ cardholderName c <> EmptyString
  /\ (all_digits (remove_spaces (number c)) = true
      /\ 13 <= String.length (remove_spaces (number c)) <= 19)
  /\ matches_expiry (expiry c) = true
  /\ (all_digits (cvv c) = true /\ 3 <= String.length (cvv c) <= 4).
Proof.
  intros Hs Hc. pose proof (reachable_valid s Hs) as Hv.
  rewrite Forall_forall in Hv. specialize (Hv c Hc).
  apply validateCard_accepts in Hv.
  rewrite !digits_between_spec in Hv. exact Hv.
Qed.

Lemma findIndex_Some cardId (s : list Card) i :
  CardManager.findIndex cardId s = Some i <->
  exists c, s !! i = Some c /\ id c = cardId
            /\ forall j y, s !! j = Some y -> j < i -> id y <> cardId.
Proof.
  unfold CardManager.findIndex.
  destruct (list_find (CardManager.has_id cardId) s) as [[k x]|] eqn:E;
    simpl.
  - apply list_find_Some in E as (Hk & Hx & Hfirst). split.
    + intros [= <-]. exists x. auto.
    + intros (c & Hi & Hid & Hfirst'). f_equal.
      destruct (Nat.lt_trichotomy k i) as [Hlt|[Heq|Hgt]];
        [|assumption|].
      * exfalso. apply (Hfirst' k x Hk Hlt). exact Hx.
      * exfalso. apply (Hfirst i c Hi Hgt). exact Hid.
  - split; [discriminate|]. intros (c & Hi & Hid & _). exfalso.
    apply list_find_None in E. rewrite Forall_forall in E.
    apply (E c); [eapply list_elem_of_lookup_2; eassumption|exact Hid].
Qed.

Lemma findIndex_insert_same_id (s : list Card) i card :
  CardManager.findIndex (id card) s = Some i ->
  CardManager.findIndex (id card) (<[i := card]> s) = Some i.
Proof.
  intros H. apply findIndex_Some in H as (c & Hi & Hid & Hfirst).
  apply findIndex_Some. exists card. split; [|split].
  - apply list_lookup_insert_eq. eapply lookup_lt_Some. eassumption.
  - reflexivity.
  - intros j y Hj Hlt. rewrite list_lookup_insert_ne in Hj by lia.
    apply (Hfirst j y Hj Hlt).
Qed.

(** X3.  After a successful [updateCard], [getCardById] of the card's id
    returns the card supplied, the lookup of every other id is what it
    was, and the store has the same length. *)
Theorem update_then_getById (card : Card) (s s' : list Card) (c' : Card) :
  CardManager.updateCard card s = (inr c', s') ->
  c' = card
  /\ CardManager.getCardById (id card) s' = (inr (Some card), s')
  /\ (forall other, other <> id card ->
        CardManager.find other s' = CardManager.find other s)
  /\ length s' = length s.
Proof.
  rewrite updateCard_unfold.
  destruct (CardManager.validateCard card) as [e|[]]; [discriminate|].
  destruct (CardManager.find (id card) s) as [old|] eqn:Hfind.
  - pose proof Hfind as Hf.
    apply find_Some in Hf as (i & Hidx & Hi & Hid & _).
    rewrite Hidx. intros [= <- <-].
    pose proof (find_insert_same_id (id card) s i old card Hfind Hi Hidx)
      as Hnew.
    rewrite decide_True in Hnew by reflexivity.
    split; [reflexivity|]. split; [|split].
    + unfold CardManager.getCardById, Store.bind. simpl.
      rewrite Hnew. reflexivity.
    + intros other Hne.
      rewrite (find_insert_same_id other s i old card Hfind Hi Hidx).
      rewrite decide_False by assumption. reflexivity.
    + apply length_insert.
  - apply findIndex_None in Hfind. rewrite Hfind. discriminate.
Qed.

Lemma filter_length_lt {A} (P : A -> Prop)
  {Pdec : forall x, Decision (P x)} (l : list A) x :
  x ∈ l -> ~ P x -> length (filter P l) < length l.
Proof.
  intros Hx Hn. induction l as [|y l IH]; [inversion Hx|].
  rewrite filter_cons.
  apply elem_of_cons in Hx as [<-|Hx].
  - rewrite decide_False by assumption.
    pose proof (length_filter P l). simpl. lia.
  - specialize (IH Hx). destruct (decide (P y)); simpl; lia.
Qed.

(** X4.  A successful [deleteCard] removes every card of that id:
    afterwards no stored card has the id, [getCardById] of it returns
    null, a second [deleteCard] of it fails with the not-found error, the
    lookup of every other id is what it was, and the store is shorter. *)
Theorem delete_removes_every_card_of_id (cardId : string)
  (s s' : list Card) (b : bool) :
  CardManager.deleteCard cardId s = (inr b, s') ->
  b = true
  /\ (cardId ∉ (id <$> s'))
  /\ CardManager.getCardById cardId s' = (inr None, s')
  /\ CardManager.deleteCard cardId s' = (inl (NotFoundError cardId), s')
  /\ (forall other, other <> cardId ->
        CardManager.find other s' = CardManager.find other s)
  /\ length s' < length s.
Proof.
  rewrite deleteCard_unfold.
  destruct (CardManager.findIndex cardId s) as [i|] eqn:Hidx;
    [|discriminate].
  intros [= <- <-].
  pose proof (find_filter_same cardId s) as Hnone.
  split; [reflexivity|]. split; [apply find_None; assumption|].
  split; [|split; [|split]].
  - unfold CardManager.getCardById, Store.bind. simpl.
    rewrite Hnone. reflexivity.
  - rewrite deleteCard_unfold.
    apply findIndex_None in Hnone. rewrite Hnone. reflexivity.
  - intros other Hne. apply find_filter_other. assumption.
  - apply findIndex_Some in Hidx as (c & Hi & Hid & _).
    apply (filter_length_lt _ s c).
    + eapply list_elem_of_lookup_2. eassumption.
    + intros Hn. apply Hn. exact Hid.
Qed.

(** X5.  [addCard] of a card that passes validation and whose id is
    stored already succeeds, yet the new card is out of reach of
    [getCardById]: the lookup of its id still returns the card stored
    before. *)
Theorem add_with_stored_id_is_shadowed (s : list Card) (card old : Card) :
  CardManager.validateCard card = inr tt ->
  CardManager.find (id card) s = Some old ->
  (CardManager.addCard card ;;; CardManager.getCardById (id card))%store s
  = (inr (Some old), s ++ [card]).
Proof.
  intros Hv Hfind. unfold Store.bind at 1.
  rewrite addCard_unfold, Hv.
  unfold CardManager.getCardById, Store.bind. simpl.
  rewrite (find_app_l _ _ _ _ Hfind). reflexivity.
Qed.

(** X6.  Of two successive calls of [updateCardLastUsed] on one id the
    later decides: when the first succeeds, the store after both is the
    store after the second alone. *)
Theorem markUsed_twice_keeps_the_later (s : list Card) (cardId : string)
  (first second : Date) :
  succeeds (MarkUsed first cardId) s ->
  succeeds (MarkUsed second cardId) (store_after (MarkUsed first cardId) s)
  /\ store_after (MarkUsed second cardId)
       (store_after (MarkUsed first cardId) s)
     = store_after (MarkUsed second cardId) s.
Proof.
  intros Hok. apply succeeds_effect in Hok
    as (i & c & Hi & Hid & Hfind & Hidx & Hv & Hs).
  rewrite Hs. subst cardId.
  assert (Hlen : i < length s) by (eapply lookup_lt_Some; eassumption).
  pose proof (find_insert_same_id (id c) s i c (with_lastUsed c first)
                Hfind Hi Hidx) as Hfind1.
  simpl in Hfind1. rewrite decide_True in Hfind1 by reflexivity.
  pose proof (findIndex_insert_same_id s i (with_lastUsed c first) Hidx)
    as Hidx1.
  simpl in Hidx1.
  assert (Hrun : forall t (c0 : Card) now,
    CardManager.find (id c) t = Some c0 ->
    CardManager.findIndex (id c) t = Some i ->
    CardManager.validateCard c0 = inr tt -> id c0 = id c ->
    CardManager.updateCardLastUsed now (id c) t
    = (inr (with_lastUsed c0 now), <[i := with_lastUsed c0 now]> t)).
  { intros t c0 now Hf Hx Hv0 Hid0.
    rewrite updateCardLastUsed_unfold, Hf, updateCard_unfold.
    rewrite validateCard_with_lastUsed, Hv0. simpl. rewrite Hid0, Hx.
    reflexivity. }
  split.
  - apply succeeds_MarkUsed.
    rewrite (Hrun _ _ second Hfind1 Hidx1 Hv eq_refl). eauto.
  - rewrite !store_after_MarkUsed.
    rewrite (Hrun _ _ second Hfind1 Hidx1 Hv eq_refl).
    rewrite (Hrun _ _ second Hfind Hidx Hv eq_refl). simpl.
    apply list_insert_insert_eq.
Qed.

(** * Further properties of the suggester *)

Lemma suggestCard_best Number_toString clock transaction cards :
  cards <> [] ->
  exists s k,
    AICardSuggester.suggestCard Number_toString clock transaction cards
    = Some s
    /\ cards !! k = Some (CardSuggestion.card s)
    /\ forall j c, cards !! j = Some c ->
         (AICardSuggester.calculateScore (clock j) c transaction
          <= AICardSuggester.calculateScore (clock k) (CardSuggestion.card s)
               transaction)%Q.
Proof.
  intros Hne.
  assert (Hsc : AICardSuggester.scored clock transaction cards <> [])
    by (intros H; apply Hne; eapply scored_nil; eassumption).
  destruct (Array_sort_head_first_greatest snd _ Hsc)
    as (k & [best points] & Hk & Hhead & Hall & _).
  rewrite scored_lookup in Hk.
  destruct (cards !! k) as [c|] eqn:Hck; [|discriminate].
  simpl in Hk. injection Hk as -> <-.
  rewrite <- scoredCards_sort in Hhead.
  destruct (suggestCard_head Number_toString clock transaction cards _ _
              Hhead) as (s & Hs & Hcard & _).
  exists s, k. rewrite Hcard. split; [assumption|]. split; [assumption|].
  intros j c0 Hj.
  apply (Hall j (c0, AICardSuggester.calculateScore (clock j) c0
                       transaction)).
  rewrite scored_lookup, Hj. reflexivity.
Qed.

(** X7.  [suggestCard] returns null exactly when there is no card; the
    card of a suggestion is one of the cards given. *)
Theorem suggestCard_null_iff_no_cards (Number_toString : Q -> string)
  (clock : nat -> Date) (transaction : Transaction) (cards : list Card) :
  (AICardSuggester.suggestCard Number_toString clock transaction cards = None
   <-> cards = [])
  /\ forall s,
       AICardSuggester.suggestCard Number_toString clock transaction cards
       = Some s ->
       CardSuggestion.card s ∈ cards.
Proof.
  split.
  - split.
    + intros Hnone. destruct cards as [|c cards]; [reflexivity|].
      destruct (suggestCard_best Number_toString clock transaction
                  (c :: cards)) as (s & _ & Hs & _); [discriminate|].
      congruence.
    + intros ->. reflexivity.
  - intros s Hs. destruct cards as [|c cards]; [discriminate Hs|].
    destruct (suggestCard_best Number_toString clock transaction
                (c :: cards)) as (s' & k & Hs' & Hk & _); [discriminate|].
    assert (s' = s) by congruence. subst s'.
    eapply list_elem_of_lookup_2. eassumption.
Qed.

Lemma cashback_term_points card transaction :
  ((if Qlt_bool 0 (or_number (cashback card !! category transaction) 0)
    then 0 + or_number (cashback card !! category transaction) 0 * 10
    else 0 + or_number (cashback card !! OTHER) 0 * 5)
   == Spec.cashback_points card transaction)%Q.
Proof.
  unfold Spec.cashback_points, Spec.direct_rate, Spec.fallback_rate.
  rewrite or_number_positive.
  destruct (cashback card !! category transaction) as [r|].
  - destruct (Qlt_bool 0 r) eqn:Hr.
    + rewrite (or_number_Qeq (Some r)). ring.
    + rewrite or_number_Qeq. ring.
  - rewrite or_number_Qeq. ring.
Qed.

Lemma score_within_9_of_points now card transaction :
  (Spec.cashback_points card transaction
   <= AICardSuggester.calculateScore now card transaction)%Q
  /\ (AICardSuggester.calculateScore now card transaction
      <= Spec.cashback_points card transaction + 9)%Q.
Proof.
  unfold AICardSuggester.calculateScore. cbv zeta.
  pose proof (cashback_term_points card transaction) as H1. revert H1.
  generalize
    (if Qlt_bool 0 (or_number (cashback card !! category transaction) 0)
     then (0 + or_number (cashback card !! category transaction) 0 * 10)%Q
     else (0 + or_number (cashback card !! OTHER) 0 * 5)%Q).
  intros q0 H1. rewrite <- H1.
  destruct (AICardSuggester.hasPerks card transaction);
    destruct (bool_decide (category transaction ∈ categories card));
    destruct (lastUsed card) as [used|];
    try destruct (Qlt_bool _ 7);
    split; unfold Qle; simpl; lia.
Qed.

Lemma points_whole card transaction :
  Spec.whole_rates card ->
  exists z : Z,
    (Spec.cashback_points card transaction == inject_Z z)%Q
    /\ (0 <= z <= 1000)%Z.
Proof.
  intros Hwhole.
  assert (Hother : exists z : Z,
            (Spec.fallback_rate card * 5 == inject_Z z)%Q
            /\ (0 <= z <= 1000)%Z).
  { unfold Spec.fallback_rate.
    destruct (cashback card !! OTHER) as [q|] eqn:E.
    - destruct (Hwhole OTHER q E) as (z & Hz & Hrange).
      exists (z * 5)%Z. split; [|lia].
      rewrite Hz. unfold Qeq. simpl. lia.
    - exists 0%Z. split; [reflexivity|lia]. }
  unfold Spec.cashback_points, Spec.direct_rate.
  destruct (cashback card !! category transaction) as [r|] eqn:E;
    [|assumption].
  destruct (Qlt_bool 0 r); [|assumption].
  destruct (Hwhole _ r E) as (z & Hz & Hrange).
  exists (z * 10)%Z. split; [|lia].
  rewrite Hz. unfold Qeq. simpl. lia.
Qed.

Lemma score_whole now card transaction :
  Spec.whole_rates card ->
  exists z : Z,
    (AICardSuggester.calculateScore now card transaction == inject_Z z)%Q
    /\ (0 <= z <= 1009)%Z.
Proof.
  intros Hwhole.
  destruct (points_whole card transaction Hwhole) as (z & Hz & Hrange).
  unfold AICardSuggester.calculateScore. cbv zeta.
  pose proof (cashback_term_points card transaction) as H1. revert H1.
  generalize
    (if Qlt_bool 0 (or_number (cashback card !! category transaction) 0)
     then (0 + or_number (cashback card !! category transaction) 0 * 10)%Q
     else (0 + or_number (cashback card !! OTHER) 0 * 5)%Q).
  intros q0 H1. rewrite Hz in H1.
  destruct (AICardSuggester.hasPerks card transaction);
    destruct (bool_decide (category transaction ∈ categories card));
    destruct (lastUsed card) as [used|];
    try destruct (Qlt_bool _ 7);
    match goal with
    | |- exists _, (?e == _)%Q /\ _ =>
        match e with
        | (q0 + 5 + 3 + 1)%Q => exists (z + 9)%Z
        | (q0 + 5 + 3)%Q => exists (z + 8)%Z
        | (q0 + 5 + 1)%Q => exists (z + 6)%Z
        | (q0 + 3 + 1)%Q => exists (z + 4)%Z
        | (q0 + 5)%Q => exists (z + 5)%Z
        | (q0 + 3)%Q => exists (z + 3)%Z
        | (q0 + 1)%Q => exists (z + 1)%Z
        | q0 => exists z
        end
    end;
    (split; [rewrite H1; unfold Qeq; simpl; lia|lia]).
Qed.

(** X8.  For cards whose rates are whole percentages from 0 to 100 (on
    which the sums of the code are exact): the score is a whole number
    from 0 to 1009; the three bonuses of [calculateScore] add between 0
    and 9 to the weighted cashback rate (direct rate x 10, else rate of
    [OTHER] x 5); so cashback decides whenever it differs by more than 9
    points: such a card outscores the other whatever the perks,
    categories and dates of last use. *)
Theorem cashback_dominates_bonuses (a b : Card) (transaction : Transaction) :
  Spec.whole_rates a -> Spec.whole_rates b ->
  (forall now, exists z : Z,
     (AICardSuggester.calculateScore now a transaction == inject_Z z)%Q
     /\ (0 <= z <= 1009)%Z)
  /\ (forall now,
        (Spec.cashback_points a transaction
         <= AICardSuggester.calculateScore now a transaction)%Q
        /\ (AICardSuggester.calculateScore now a transaction
            <= Spec.cashback_points a transaction + 9)%Q)
  /\ ((Spec.cashback_points b transaction + 9
       < Spec.cashback_points a transaction)%Q ->
      forall now_a now_b,
        (AICardSuggester.calculateScore now_b b transaction
         < AICardSuggester.calculateScore now_a a transaction)%Q).
Proof.
  intros Ha Hb. split; [|split].
  - intros now. apply score_whole. assumption.
  - intros now. apply score_within_9_of_points.
  - intros Hgap now_a now_b.
    destruct (score_within_9_of_points now_a a transaction) as [Hlow _].
    destruct (score_within_9_of_points now_b b transaction) as [_ Hhigh].
    eapply Qle_lt_trans; [exact Hhigh|].
    eapply Qlt_le_trans; [exact Hgap|exact Hlow].
Qed.

(** X9.  When the rates of all the cards given are whole percentages from
    0 to 100 (on which the sums of the code are exact), the score of the
    card [suggestCard] chooses is a whole number from 0 to 1009, and that
    card is within 9 points of the best weighted cashback rate among the
    cards: no card has a weighted rate more than 9 above that of the
    chosen one. *)
Theorem suggestion_within_9_points_of_best_cashback
  (Number_toString : Q -> string) (clock : nat -> Date)
  (transaction : Transaction) (cards : list Card) (s : CardSuggestion.t)
  (c : Card) :
  Forall Spec.whole_rates cards ->
  AICardSuggester.suggestCard Number_toString clock transaction cards
  = Some s ->
  c ∈ cards ->
  (Spec.cashback_points c transaction
   <= Spec.cashback_points (CardSuggestion.card s) transaction + 9)%Q
  /\ forall now, exists z : Z,
       (AICardSuggester.calculateScore now (CardSuggestion.card s)
          transaction == inject_Z z)%Q
       /\ (0 <= z <= 1009)%Z.
Proof.
  intros Hwhole Hs Hc. destruct cards as [|c0 cards]; [discriminate Hs|].
  destruct (suggestCard_best Number_toString clock transaction
              (c0 :: cards)) as (s' & k & Hs' & Hk & Hbest);
    [discriminate|].
  assert (s' = s) by congruence. subst s'.
  split.
  2:{ intros now. apply score_whole.
      rewrite Forall_forall in Hwhole. apply Hwhole.
      eapply list_elem_of_lookup_2. eassumption. }
  apply list_elem_of_lookup_1 in Hc as [j Hj].
  destruct (score_within_9_of_points (clock j) c transaction) as [Hlow _].
  destruct (score_within_9_of_points (clock k) (CardSuggestion.card s)
              transaction) as [_ Hhigh].
  eapply Qle_trans; [exact Hlow|].
  eapply Qle_trans; [apply (Hbest j c Hj)|exact Hhigh].
Qed.

(** X10.  The record that [updateCardLastUsed] stores earns the recency
    point of [calculateScore] for seven days: for a card without
    [lastUsed], the copy marked at [used] scores one more than the card
    at every instant less than seven days after [used] (and at every
    instant before it), and the same as the card from seven days on. *)
Theorem recency_point_lasts_seven_days (card : Card) (used now : Date)
  (transaction : Transaction) :
  lastUsed card = None ->
  ((now - used < Spec.seven_days)%Z ->
     (AICardSuggester.calculateScore now (with_lastUsed card used)
        transaction
      == AICardSuggester.calculateScore now card transaction + 1)%Q)
  /\ ((Spec.seven_days <= now - used)%Z ->
        (AICardSuggester.calculateScore now (with_lastUsed card used)
           transaction
         == AICardSuggester.calculateScore now card transaction)%Q).
Proof.
  intros Hnone. unfold AICardSuggester.calculateScore.
  unfold AICardSuggester.hasPerks. simpl. rewrite Hnone.
  split; intros Hage.
  - apply days_since_lt_7 in Hage. rewrite Hage. reflexivity.
  - destruct (Qlt_bool _ 7) eqn:E; [|reflexivity].
    apply days_since_lt_7 in E. lia.
Qed.

(** * Properties of the navigation history *)

Lemma after_snoc actions action :
  Navigation.after (actions ++ [action])
  = Navigation.dispatch (Navigation.after actions) action.
Proof. unfold Navigation.after. rewrite foldl_app. reflexivity. Qed.

Lemma dispatch_keeps_root history action rest :
  history = Navigation.HOME :: rest ->
  exists rest', Navigation.dispatch history action
                = Navigation.HOME :: rest'.
Proof.
  intros ->. destruct action as [screen|]; simpl.
  - exists (rest ++ [screen]). reflexivity.
  - unfold Navigation.goBack. destruct rest as [|x rest]; simpl.
    + exists []. reflexivity.
    + eexists. reflexivity.
Qed.

(** X12.  Whatever the screens ask for, one request per render, the
    history is never empty and its first entry stays [HOME]; so there is
    always a current screen, and [goBack] never leaves the home screen. *)
Theorem history_never_empty (actions : list Navigation.Action) :
  (exists rest, Navigation.after actions = Navigation.HOME :: rest)
  /\ is_Some (Navigation.currentScreen (Navigation.after actions)).
Proof.
  assert (Hroot : exists rest,
            Navigation.after actions = Navigation.HOME :: rest).
  { induction actions as [|action actions IH] using rev_ind.
    - exists []. reflexivity.
    - destruct IH as [rest IH]. rewrite after_snoc.
      eapply dispatch_keeps_root. eassumption. }
  split; [assumption|]. destruct Hroot as [rest ->].
  unfold Navigation.currentScreen. apply lookup_lt_is_Some. simpl. lia.
Qed.

(** X13.  [navigate] makes its screen the current one and [goBack]
    undoes it: on a history that is not empty, going back after a
    navigation gives the history as it was.  On a history of one screen
    [goBack] changes nothing. *)
Theorem goBack_undoes_navigate (history : list Navigation.Screen)
  (screen : Navigation.Screen) :
  history <> [] ->
  Navigation.currentScreen
    (Navigation.dispatch history (Navigation.Navigate screen))
  = Some screen
  /\ Navigation.dispatch
       (Navigation.dispatch history (Navigation.Navigate screen))
       Navigation.GoBack
     = history
  /\ (length history = 1 ->
      Navigation.dispatch history Navigation.GoBack = history).
Proof.
  intros Hne. simpl. unfold Navigation.navigate, Navigation.goBack,
    Navigation.currentScreen.
  rewrite length_app. simpl.
  replace (length history + 1 - 1) with (length history) by lia.
  split; [|split].
  - rewrite lookup_app_r by lia. rewrite Nat.sub_diag. reflexivity.
  - destruct history as [|x history]; [congruence|]. simpl length.
    replace (1 <? S (length history) + 1)%nat with true
      by (symmetry; apply Nat.ltb_lt; lia).
    change (x :: history) with ([] ++ x :: history) at 2.
    rewrite take_app_length'; [reflexivity|]. simpl. reflexivity.
  - intros ->. reflexivity.
Qed.

(** * Properties of the add-card form *)

Lemma filter_other_id (category : Category) (l : list Category) :
  category ∉ l -> filter (fun c => c <> category) l = l.
Proof.
  induction l as [|x l IH]; [reflexivity|]. intros Hn.
  apply not_elem_of_cons in Hn as [Hx Hl].
  rewrite filter_cons, decide_True by congruence. rewrite IH by assumption.
  reflexivity.
Qed.

(** X14.  [toggleCategory] flips the membership of its category and of no
    other, keeps a selection free of duplicates free of duplicates, and
    selecting then deselecting a category that was not selected gives the
    selection as it was. *)
Theorem toggleCategory_flips_one (category : Category)
  (selected : list Category) :
  (forall c, c ∈ AddCardScreen.toggleCategory category selected <->
             (c <> category /\ c ∈ selected)
             \/ (c = category /\ category ∉ selected))
  /\ (NoDup selected ->
      NoDup (AddCardScreen.toggleCategory category selected))
  /\ (category ∉ selected ->
      AddCardScreen.toggleCategory category
        (AddCardScreen.toggleCategory category selected)
      = selected).
Proof.
  unfold AddCardScreen.toggleCategory.
  split; [|split].
  - intros c. destruct (decide (category ∈ selected)) as [Hin|Hout].
    + rewrite (bool_decide_eq_true_2 _ Hin), list_elem_of_filter. tauto.
    + rewrite (bool_decide_eq_false_2 _ Hout), elem_of_app,
        list_elem_of_singleton.
      split.
      * intros [Hc| ->]; [|auto]. left. split; [congruence|assumption].
      * intros [[_ Hc]|[-> _]]; auto.
  - intros Hnd. destruct (decide (category ∈ selected)) as [Hin|Hout].
    + rewrite (bool_decide_eq_true_2 _ Hin). apply NoDup_filter. assumption.
    + rewrite (bool_decide_eq_false_2 _ Hout). apply NoDup_app.
      split; [assumption|]. split; [|apply NoDup_singleton].
      intros x Hx Hx'. apply list_elem_of_singleton in Hx'. congruence.
  - intros Hout. rewrite (bool_decide_eq_false_2 _ Hout).
    rewrite bool_decide_eq_true_2
      by (apply elem_of_app; right; apply list_elem_of_here).
    rewrite filter_app, (filter_other_id _ _ Hout), filter_cons.
    rewrite decide_False by (intros H; apply H; reflexivity).
    rewrite filter_nil. apply app_nil_r.
Qed.

Lemma trim_not_empty s : is_empty (trim s) = false -> is_empty s = false.
Proof. destruct s; [discriminate|reflexivity]. Qed.

(** X15.  A form that [isFormValid] lets through can still be rejected by
    [addCard], but only for an empty generated id or for the format of the
    number, the expiry or the CVV, never for a missing field; the store is
    then unchanged.  Otherwise the card built from the form is appended. *)
Theorem valid_form_fails_only_on_id_or_format
  (generatedId name number expiry cvv cardholderName : string)
  (selectedCategories : list Category) (s : list Card) :
  AddCardScreen.isFormValid name number expiry cvv cardholderName
    selectedCategories = true ->
  let card :=
    AddCardScreen.newCard generatedId name number expiry cvv cardholderName
      selectedCategories in
  (CardManager.addCard card s = (inr card, s ++ [card])
   /\ generatedId <> EmptyString)
  \/ exists rule,
       CardManager.addCard card s = (inl (ValidationError rule), s)
       /\ (rule = IdRequired \/ rule = NumberFormat
           \/ rule = ExpiryFormat \/ rule = CvvFormat).
Proof.
  unfold AddCardScreen.isFormValid. rewrite !andb_true_iff, !negb_true_iff.
  intros (((((Hname & Hnumber) & Hexpiry) & Hcvv) & Hholder) & _).
  apply trim_not_empty in Hname, Hnumber, Hexpiry, Hcvv, Hholder.
  rewrite addCard_unfold.
  unfold CardManager.validateCard, CardManager.throw_if.
  unfold AddCardScreen.newCard. cbn.
  rewrite Hname, Hnumber, Hexpiry, Hcvv, Hholder.
  destruct (is_empty generatedId) eqn:Hid; [right; eauto|].
  destruct (digits_between 13 19 _); simpl; [|right; eauto 6].
  destruct (matches_expiry _); simpl; [|right; eauto 6].
  destruct (digits_between 3 4 _); simpl; [|right; eauto 6].
  left. split; [reflexivity|]. apply is_empty_false. assumption.
Qed.

(** * Properties of the amount field and of the card face *)

Lemma remove_non_numeric_numeric text :
  string_forallb SuggestionScreen.is_numeric
    (SuggestionScreen.remove_non_numeric text) = true.
Proof.
  induction text as [|a text IH]; [reflexivity|]. simpl.
  destruct (SuggestionScreen.is_numeric a) eqn:E; [|assumption].
  simpl. rewrite E, IH. reflexivity.
Qed.

Lemma remove_non_numeric_fixed text :
  string_forallb SuggestionScreen.is_numeric text = true ->
  SuggestionScreen.remove_non_numeric text = text.
Proof.
  induction text as [|a text IH]; [reflexivity|]. simpl.
  rewrite andb_true_iff. intros [Ha Ht]. rewrite Ha, IH by assumption.
  reflexivity.
Qed.

Lemma remove_non_numeric_filter text :
  list_ascii_of_string (SuggestionScreen.remove_non_numeric text)
  = List.filter SuggestionScreen.is_numeric (list_ascii_of_string text).
Proof.
  induction text as [|a text IH]; [reflexivity|]. simpl.
  destruct (SuggestionScreen.is_numeric a); simpl; rewrite IH; reflexivity.
Qed.

Lemma is_numeric_spec a :
  SuggestionScreen.is_numeric a = true <->
  In a (list_ascii_of_string "0123456789.").
Proof.
  split.
  - unfold SuggestionScreen.is_numeric, is_digit.
    destruct a as [[] [] [] [] [] [] [] []]; vm_compute;
      try discriminate; intros _; tauto.
  - simpl. intros H.
    repeat (destruct H as [<-|H]; [reflexivity|]). destruct H.
Qed.

(** X16.  [handleAmountChange] keeps the digits and dots of the text, in
    order, and nothing else: the characters of the amount it sets are
    those of the text with every character other than [0]-[9] and [.]
    left out.  So the amount holds no other character (no sign, no
    letter), a text of digits and dots is kept as it is, applying it twice
    is applying it once, and the amount is never longer than the text. *)
Theorem handleAmountChange_keeps_digits_and_dots (text : string) :
  string_forallb SuggestionScreen.is_numeric
    (SuggestionScreen.handleAmountChange text) = true
  /\ (string_forallb SuggestionScreen.is_numeric text = true ->
      SuggestionScreen.handleAmountChange text = text)
  /\ SuggestionScreen.handleAmountChange
       (SuggestionScreen.handleAmountChange text)
     = SuggestionScreen.handleAmountChange text
  /\ String.length (SuggestionScreen.handleAmountChange text)
     <= String.length text
  /\ list_ascii_of_string (SuggestionScreen.handleAmountChange text)
     = List.filter
         (fun a => bool_decide (In a (list_ascii_of_string "0123456789.")))
         (list_ascii_of_string text).
Proof.
  unfold SuggestionScreen.handleAmountChange. cbv zeta.
  split; [apply remove_non_numeric_numeric|].
  split; [apply remove_non_numeric_fixed|].
  split; [apply remove_non_numeric_fixed, remove_non_numeric_numeric|].
  split.
  - induction text as [|a text IH]; simpl; [lia|].
    destruct (SuggestionScreen.is_numeric a); simpl; lia.
  - rewrite remove_non_numeric_filter. apply List.filter_ext.
    intros a. destruct (SuggestionScreen.is_numeric a) eqn:E.
    + symmetry. apply bool_decide_eq_true_2, is_numeric_spec. assumption.
    + symmetry. apply bool_decide_eq_false_2. intros H.
      apply is_numeric_spec in H. congruence.
Qed.

Lemma string_drop_split n s :
  n <= String.length s ->
  exists hidden,
    s = (hidden ++ string_drop n s)%string
    /\ String.length hidden = n
    /\ String.length (string_drop n s) = String.length s - n.
Proof.
  revert s. induction n as [|n IH]; intros s Hn.
  - exists EmptyString. simpl. split; [reflexivity|]. split; [reflexivity|lia].
  - destruct s as [|a s]; simpl in *; [lia|].
    destruct (IH s) as (hidden & Heq & Hlen & Hrest); [lia|].
    exists (String a hidden). split; [|split].
    + change (String a s = String a (hidden ++ string_drop n s)%string).
      f_equal. exact Heq.
    + simpl. lia.
    + simpl. lia.
Qed.

Lemma all_digits_app s t :
  all_digits (s ++ t)%string = all_digits s && all_digits t.
Proof.
  induction s as [|a s IH]; [reflexivity|]. simpl. rewrite IH.
  apply andb_assoc.
Qed.

(** X17.  [formatCardNumber] shows the mask followed by the last four
    characters of the number without its white space (all of them when
    there are fewer), and nothing else of the number.  For a card that
    passes [validateCard] what is shown is exactly four digits, and at
    least nine digits stay hidden. *)
Theorem formatCardNumber_shows_last_four (card : Card) :
  exists hidden shown,
    remove_spaces (number card) = (hidden ++ shown)%string
    /\ String.length shown
       = Nat.min 4 (String.length (remove_spaces (number card)))
    /\ CardItem.formatCardNumber (number card) true
       = ("**** **** **** " ++ shown)%string
    /\ CardItem.formatCardNumber (number card) false
       = (CardItem.bullets ++ shown)%string
    /\ (CardManager.validateCard card = inr tt ->
        String.length shown = 4 /\ all_digits shown = true
        /\ 9 <= String.length hidden).
Proof.
  unfold CardItem.formatCardNumber, slice_last. cbv zeta.
  set (clean := remove_spaces (number card)).
  destruct (string_drop_split (String.length clean - 4) clean)
    as (hidden & Heq & Hlen & Hrest); [lia|].
  exists hidden, (string_drop (String.length clean - 4) clean).
  split; [assumption|]. split; [lia|].
  split; [reflexivity|]. split; [reflexivity|].
  intros Hv. apply validateCard_accepts in Hv as (_ & _ & _ & Hnum & _).
  fold clean in Hnum. apply digits_between_spec in Hnum as [Hdigits Hrange].
  split; [lia|]. split; [|lia].
  rewrite Heq, all_digits_app in Hdigits.
  apply andb_true_iff in Hdigits as [_ H]. exact H.
Qed.

(** * The further properties at sample data *)

Lemma validateCard_accepts_exactly_witness :
  CardManager.validateCard Sample.amex = inr tt.
Proof.
  apply (proj2 (validateCard_accepts_exactly Sample.amex)).
  split; [discriminate|]. split; [discriminate|]. split; [discriminate|].
  split; [split; [reflexivity|simpl; lia]|].
  split; [|split; [reflexivity|simpl; lia]].
  do 4 eexists. repeat split; reflexivity.
Defined.

Lemma stored_cards_are_well_formed_witness :
  id Sample.chase <> EmptyString
  /\ name Sample.chase <> EmptyString
  /\ cardholderName Sample.chase <> EmptyString
  /\ (all_digits (remove_spaces (number Sample.chase)) = true
      /\ 13 <= String.length (remove_spaces (number Sample.chase)) <= 19)
  /\ matches_expiry (expiry Sample.chase) = true
  /\ (all_digits (cvv Sample.chase) = true
      /\ 3 <= String.length (cvv Sample.chase) <= 4).
Proof.
  apply (stored_cards_are_well_formed [Sample.chase] Sample.chase).
  - exact sample_reachable_chase.
  - apply list_elem_of_here.
Defined.

Lemma update_then_getById_witness :
  CardManager.getCardById "1"
    [with_lastUsed Sample.chase 5%Z; Sample.amex]
  = (inr (Some (with_lastUsed Sample.chase 5%Z)),
     [with_lastUsed Sample.chase 5%Z; Sample.amex]).
Proof.
  exact (proj1 (proj2 (update_then_getById (with_lastUsed Sample.chase 5%Z)
                         [Sample.chase; Sample.amex]
                         [with_lastUsed Sample.chase 5%Z; Sample.amex]
                         (with_lastUsed Sample.chase 5%Z) eq_refl))).
Defined.

Lemma delete_removes_every_card_of_id_witness :
  CardManager.deleteCard "1" [Sample.amex]
  = (inl (NotFoundError "1"), [Sample.amex])
  /\ length [Sample.amex] < length [Sample.chase; Sample.amex; Sample.chase].
Proof.
  destruct (delete_removes_every_card_of_id "1"
              [Sample.chase; Sample.amex; Sample.chase] [Sample.amex] true
              eq_refl) as (_ & _ & _ & Hagain & _ & Hshorter).
  split; [exact Hagain|exact Hshorter].
Defined.

Lemma add_with_stored_id_is_shadowed_witness :
  (CardManager.addCard (with_lastUsed Sample.chase 5%Z)
   ;;; CardManager.getCardById "1")%store [Sample.chase]
  = (inr (Some Sample.chase),
     [Sample.chase; with_lastUsed Sample.chase 5%Z]).
Proof.
  apply (add_with_stored_id_is_shadowed [Sample.chase]
           (with_lastUsed Sample.chase 5%Z) Sample.chase);
    reflexivity.
Defined.

Lemma markUsed_twice_keeps_the_later_witness :
  store_after (MarkUsed 9%Z "1")
    (store_after (MarkUsed 5%Z "1") [Sample.chase])
  = store_after (MarkUsed 9%Z "1") [Sample.chase].
Proof.
  apply (proj2 (markUsed_twice_keeps_the_later [Sample.chase] "1" 5%Z 9%Z
                  (ex_intro _ _ eq_refl))).
Defined.

Lemma suggestCard_null_iff_no_cards_witness :
  exists s,
    AICardSuggester.suggestCard Sample.print_whole Sample.noon Sample.dinner
      [Sample.chase; Sample.amex] = Some s
    /\ CardSuggestion.card s ∈ [Sample.chase; Sample.amex].
Proof.
  eexists. split; [reflexivity|].
  apply (proj2 (suggestCard_null_iff_no_cards Sample.print_whole
                  Sample.noon Sample.dinner [Sample.chase; Sample.amex])).
  reflexivity.
Defined.

Lemma sample_whole_rates_chase : Spec.whole_rates Sample.chase.
Proof.
  intros k r H. destruct k; vm_compute in H;
    try discriminate H; injection H as <-;
    eexists; (split; [apply Qeq_refl|split; discriminate]).
Defined.

Lemma sample_whole_rates_amex : Spec.whole_rates Sample.amex.
Proof.
  intros k r H. destruct k; vm_compute in H;
    try discriminate H; injection H as <-;
    eexists; (split; [apply Qeq_refl|split; discriminate]).
Defined.

Lemma sample_whole_rates_flat : Spec.whole_rates Sample.flat.
Proof.
  intros k r H. destruct k; vm_compute in H;
    try discriminate H; injection H as <-;
    eexists; (split; [apply Qeq_refl|split; discriminate]).
Defined.

Lemma cashback_dominates_bonuses_witness :
  (AICardSuggester.calculateScore 0%Z Sample.flat Sample.dinner
   < AICardSuggester.calculateScore 0%Z Sample.amex Sample.dinner)%Q.
Proof.
  apply (proj2 (proj2 (cashback_dominates_bonuses Sample.amex Sample.flat
                         Sample.dinner sample_whole_rates_amex
                         sample_whole_rates_flat))).
  reflexivity.
Defined.

Lemma suggestion_within_9_points_of_best_cashback_witness :
  exists s,
    AICardSuggester.suggestCard Sample.print_whole Sample.noon Sample.dinner
      [Sample.chase; Sample.amex] = Some s
    /\ (Spec.cashback_points Sample.chase Sample.dinner
        <= Spec.cashback_points (CardSuggestion.card s) Sample.dinner + 9)%Q.
Proof.
  eexists. split; [reflexivity|].
  refine (proj1 (suggestion_within_9_points_of_best_cashback
                   Sample.print_whole Sample.noon Sample.dinner
                   [Sample.chase; Sample.amex] _ Sample.chase _ _ _)).
  - repeat constructor;
      [apply sample_whole_rates_chase|apply sample_whole_rates_amex].
  - reflexivity.
  - apply list_elem_of_here.
Defined.

Lemma recency_point_lasts_seven_days_witness :
  (AICardSuggester.calculateScore 1000%Z (with_lastUsed Sample.chase 0%Z)
     Sample.dinner
   == AICardSuggester.calculateScore 1000%Z Sample.chase Sample.dinner
      + 1)%Q.
Proof.
  apply (proj1 (recency_point_lasts_seven_days Sample.chase 0%Z 1000%Z
                  Sample.dinner eq_refl)).
  reflexivity.
Defined.

Lemma goBack_undoes_navigate_witness :
  Navigation.dispatch
    (Navigation.dispatch [Navigation.HOME]
       (Navigation.Navigate Navigation.ADD_CARD))
    Navigation.GoBack
  = [Navigation.HOME].
Proof.
  assert (Hne : [Navigation.HOME] <> []) by discriminate.
  exact (proj1 (proj2 (goBack_undoes_navigate [Navigation.HOME]
                         Navigation.ADD_CARD Hne))).
Defined.

Lemma toggleCategory_flips_one_witness :
  AddCardScreen.toggleCategory DINING
    (AddCardScreen.toggleCategory DINING [TRAVEL])
  = [TRAVEL].
Proof.
  apply (proj2 (proj2 (toggleCategory_flips_one DINING [TRAVEL]))).
  intros H. apply elem_of_cons in H as [H|H]; [discriminate|inversion H].
Defined.

Lemma valid_form_fails_only_on_id_or_format_witness :
  let card :=
    AddCardScreen.newCard "k3x9" "Chase Sapphire" "4111111111111111"
      "12/25" "12" "John Doe" [DINING] in
  (CardManager.addCard card [] = (inr card, [] ++ [card])
   /\ "k3x9" <> EmptyString)
  \/ exists rule,
       CardManager.addCard card [] = (inl (ValidationError rule), [])
       /\ (rule = IdRequired \/ rule = NumberFormat
           \/ rule = ExpiryFormat \/ rule = CvvFormat).
Proof.
  apply (valid_form_fails_only_on_id_or_format "k3x9" "Chase Sapphire"
           "4111111111111111" "12/25" "12" "John Doe" [DINING] []).
  reflexivity.
Defined.

Lemma handleAmountChange_keeps_digits_and_dots_witness :
  SuggestionScreen.handleAmountChange "45.99" = "45.99".
Proof.
  exact (proj1 (proj2 (handleAmountChange_keeps_digits_and_dots "45.99"))
           eq_refl).
Defined.

Lemma formatCardNumber_shows_last_four_witness :
  exists hidden shown,
    remove_spaces (number Sample.flat) = (hidden ++ shown)%string
    /\ CardItem.formatCardNumber (number Sample.flat) true
       = ("**** **** **** " ++ shown)%string
    /\ String.length shown = 4 /\ all_digits shown = true.
Proof.
  destruct (formatCardNumber_shows_last_four Sample.flat)
    as (hidden & shown & Hsplit & _ & Hshow & _ & Hvalid).
  destruct (Hvalid eq_refl) as (Hfour & Hdigits & _).
  exists hidden, shown. auto.
Defined.

(** X18.  A card that scores strictly higher than every other card given
    is the card suggested, at whatever position it stands. *)
Theorem strictly_best_card_is_suggested (Number_toString : Q -> string)
  (clock : nat -> Date) (transaction : Transaction) (cards : list Card)
  (m : nat) (c : Card) :
  cards !! m = Some c ->
  (forall j c', j <> m -> cards !! j = Some c' ->
     (AICardSuggester.calculateScore (clock j) c' transaction
      < AICardSuggester.calculateScore (clock m) c transaction)%Q) ->
  exists s,
    AICardSuggester.suggestCard Number_toString clock transaction cards
    = Some s
    /\ CardSuggestion.card s = c.
Proof.
  intros Hm Hstrict.
  assert (Hne : cards <> []) by (intros ->; discriminate Hm).
  destruct (suggestCard_best Number_toString clock transaction cards Hne)
    as (s & k & Hs & Hk & Hbest).
  exists s. split; [assumption|].
  destruct (decide (k = m)) as [->|Hkm]; [congruence|].
  exfalso. pose proof (Hstrict k _ Hkm Hk) as Hlt.
  apply (Qlt_not_le _ _ Hlt). apply (Hbest m c Hm).
Qed.

Lemma strictly_best_card_is_suggested_witness :
  exists s,
    AICardSuggester.suggestCard Sample.print_whole Sample.noon Sample.dinner
      [Sample.flat; Sample.amex] = Some s
    /\ CardSuggestion.card s = Sample.amex.
Proof.
  apply (strictly_best_card_is_suggested Sample.print_whole Sample.noon
           Sample.dinner [Sample.flat; Sample.amex] 1 Sample.amex).
  - reflexivity.
  - intros [|[|j]] c' Hj Hc'; [|congruence|discriminate Hc'].
    injection Hc' as <-. reflexivity.
Defined.
